(** * Scheduled multi-platform publishing: a shallow embedding

    The development follows the JavaScript sources
    - [backend/services/socialMediaService.js]  (platform table, [postToPlatform]),
    - [backend/models/SocialMediaPost.js]       (schema, virtuals, pre-save hook),
    - [backend/services/schedulerService.js]    (job cache, tick, job processor),
    - [backend/routes/scheduler.js] and [backend/controllers/schedulerController.js]
      (request validation and the HTTP handlers that call the service).

    Conventions.  A JavaScript value that may be [undefined] is an [option];
    dates are epoch milliseconds in [Z]; counters are [Z]; the two derived
    rates are exact rationals ([Qc]); a thrown exception or a rejected promise
    is the [Throw] case of [Completion].  The post collection and the
    [scheduledJobs] map are finite maps keyed by the post id. *)

From Stdlib Require Import ZArith QArith Qcanon String List Bool Lia.
From stdpp Require Import base option list gmap strings numbers fin_maps pretty sorting.

Local Open Scope string_scope.
Local Open Scope Z_scope.

(** ** JavaScript completions *)

Module Js.

(** An [Error] object as far as the sources inspect it: [error.message] and
    [error.code]. *)
Record Error := mkError { message : string; code : option string }.

(** The outcome of evaluating a call: it returns (an awaited promise
    resolves) or it throws (the promise rejects). *)
Inductive Completion (A : Type) : Type :=
| Return (a : A)
| Throw (e : Error).

Arguments Return {A} a.
Arguments Throw {A} e.

Definition bind {A B} (c : Completion A) (k : A -> Completion B) : Completion B :=
  match c with
  | Return a => k a
  | Throw e => Throw e
  end.

(** [try { body } catch (error) { handler }] *)
Definition try_catch {A} (body : Completion A) (handler : Error -> Completion A)
  : Completion A :=
  match body with
  | Return a => Return a
  | Throw e => handler e
  end.

(** [new Error(msg)]: no [code] property. *)
Definition new_Error (msg : string) : Error := mkError msg None.

(** A [TypeError] raised by the engine.  The wording of the message is
    engine-defined; nothing below depends on it. *)
Definition TypeError (msg : string) : Error := mkError msg None.

(** [x || d] on an optional string: [undefined] and the empty string are
    falsy. *)
Definition or_string (x : option string) (d : string) : string :=
  match x with
  | Some s => if String.eqb s "" then d else s
  | None => d
  end.

(** [x || 0] on an optional number. *)
Definition or_zero (x : option Z) : Z :=
  match x with
  | Some n => n
  | None => 0
  end.

End Js.

Export Js.

#[export] Instance Completion_ret : MRet Completion := @Return.
#[export] Instance Completion_bind : MBind Completion :=
  fun A B k c => Js.bind c k.

(** ** Shared data *)

(** The six channel names, as in the schema's [enum] and the validators'
    [isIn] lists. *)
Definition supportedPlatforms : list string :=
  ["facebook"; "twitter"; "instagram"; "linkedin"; "tiktok"; "youtube"].

Record MediaItem := mkMedia { m_type : string; m_url : string }.

(** The five engagement counters of the schema; a counter the adapter did not
    report is [None]. *)
Record Engagement := mkEngagement {
  likes : option Z;
  comments : option Z;
  shares : option Z;
  views : option Z;
  clicks : option Z
}.

(** The empty object [{}]. *)
Definition no_engagement : Engagement := mkEngagement None None None None None.

Definition Metadata := list (string * string).

(** The object the callers hand to [postToPlatform]. *)
Record PostData := mkPostData {
  pd_content : string;
  pd_media : list MediaItem;
  pd_hashtags : list string;
  pd_mentions : list string;
  pd_link : option string
}.

Definition Credentials := list (string * string).

(** ** socialMediaService.js *)

Module SocialMediaService.

(** What a platform service resolves with. *)
Record ServiceResult := mkServiceResult {
  sr_postId : option string;
  sr_url : option string;
  sr_engagement : option Engagement;
  sr_metadata : option Metadata
}.

(** The object returned by [postToPlatform]; which fields are present
    depends on [success]. *)
Record PlatformResponse := mkResponse {
  success : bool;
  platform : string;
  postId : option string;
  url : option string;
  engagement : option Engagement;
  metadata : option Metadata;
  error : option string;
  code : option string
}.

(** The behaviour of the remote platforms: for each of the six bound
    services, what a call settles to. *)
Definition Services := string -> PostData -> option Credentials -> Completion ServiceResult.

(** Property names every object literal inherits from [Object.prototype]. *)
Definition objectPrototypeKeys : list string :=
  ["constructor"; "toString"; "toLocaleString"; "valueOf"; "hasOwnProperty";
   "isPrototypeOf"; "propertyIsEnumerable"; "__defineGetter__";
   "__defineSetter__"; "__lookupGetter__"; "__lookupSetter__"; "__proto__"].

(** The value of [this.platforms[platform]].  [this.platforms] is an object
    literal with six own properties; any other key is looked up on
    [Object.prototype]. *)
Inductive PlatformsEntry :=
| BoundService (name : string)
| Inherited (key : string)
| Undefined.

Definition platforms_get (platform : string) : PlatformsEntry :=
  if bool_decide (platform ∈ supportedPlatforms) then BoundService platform
  else if bool_decide (platform ∈ objectPrototypeKeys) then Inherited platform
  else Undefined.

(** Calling an inherited member as [service(postData, credentials)], that is
    with [this] undefined and an object as first argument:
    - [Object(postData, credentials)] returns [postData] itself, which has no
      [postId], [url], [engagement] or [metadata] property;
    - [Object.prototype.toString] returns the string ["[object Undefined]"],
      on which those four property reads give [undefined] as well;
    - [__proto__] yields the prototype object, which is not callable;
    - every other member converts [this] to an object first and throws. *)
Definition call_inherited (key : string) (postData : PostData)
  (credentials : option Credentials) : Completion ServiceResult :=
  if String.eqb key "constructor" then Return (mkServiceResult None None None None)
  else if String.eqb key "toString" then Return (mkServiceResult None None None None)
  else if String.eqb key "__proto__" then Throw (TypeError "service is not a function")
  else Throw (TypeError "Cannot convert undefined or null to object").

Section WithServices.

Variable services : Services.

(** [async postToPlatform(platform, postData, credentials = null)] *)
Definition postToPlatform (platform : string) (postData : PostData)
  (credentials : option Credentials) : Completion PlatformResponse :=
  try_catch
    (service ←
       match platforms_get platform with
       | Undefined =>
           Throw (new_Error ("Platform " ++ platform ++ " is not supported"))
       | entry => Return entry
       end;
     result ←
       match service with
       | BoundService name => services name postData credentials
       | Inherited key => call_inherited key postData credentials
       | Undefined => Throw (TypeError "service is not a function")
       end;
     Return {| success := true;
               platform := platform;
               postId := sr_postId result;
               url := sr_url result;
               engagement := Some (default no_engagement (sr_engagement result));
               metadata := Some (default [] (sr_metadata result));
               error := None;
               code := None |})
    (fun err =>
       Return {| success := false;
                 platform := platform;
                 postId := None;
                 url := None;
                 engagement := None;
                 metadata := None;
                 error := Some (Js.message err);
                 code := Some (or_string (Js.code err) "UNKNOWN_ERROR") |}).

End WithServices.

End SocialMediaService.

(** ** models/SocialMediaPost.js *)

Module SocialMediaPost.

Definition PostId := nat.
Definition UserId := nat.

(** [status.enum] of the schema. *)
Definition statusEnum : list string :=
  ["draft"; "scheduled"; "published"; "failed"; "cancelled"].

(** [postResults.status.enum] of the schema. *)
Definition resultStatusEnum : list string := ["success"; "failed"; "pending"].

(** [media.type.enum] of the schema. *)
Definition mediaTypeEnum : list string := ["image"; "video"; "gif"].

Record Link := mkLink { l_url : string }.

(** One element of [postResults]. *)
Record PostResult := mkPostResult {
  platform : string;
  postId : option string;
  url : option string;
  publishedAt : option Z;
  engagement : option Engagement;
  error : option string;
  status : string
}.

Record Analytics := mkAnalytics {
  totalReach : Z;
  totalEngagement : Z;
  engagementRate : Qc;
  clickThroughRate : Qc
}.

(** The schema defaults of [analytics]. *)
Definition defaultAnalytics : Analytics := mkAnalytics 0 0 0%Qc 0%Qc.

(** A stored document.  The fields [product], [targeting], [budget] and the
    two timestamps play no part in the scheduler and are left out. *)
Record Post := mkPost {
  _id : PostId;
  title : string;
  content : string;
  platforms : list string;
  media : list MediaItem;
  hashtags : list string;
  mentions : list string;
  links : list Link;
  scheduledDate : option Z;
  publishedDate : option Z;
  p_status : string;
  postResults : list PostResult;
  createdBy : UserId;
  analytics : Analytics
}.

Definition set_status (s : string) (p : Post) : Post :=
  mkPost (_id p) (title p) (content p) (platforms p) (media p) (hashtags p)
    (mentions p) (links p) (scheduledDate p) (publishedDate p) s
    (postResults p) (createdBy p) (analytics p).

Definition set_publishedDate (d : option Z) (p : Post) : Post :=
  mkPost (_id p) (title p) (content p) (platforms p) (media p) (hashtags p)
    (mentions p) (links p) (scheduledDate p) d (p_status p)
    (postResults p) (createdBy p) (analytics p).

Definition set_postResults (rs : list PostResult) (p : Post) : Post :=
  mkPost (_id p) (title p) (content p) (platforms p) (media p) (hashtags p)
    (mentions p) (links p) (scheduledDate p) (publishedDate p) (p_status p)
    rs (createdBy p) (analytics p).

Definition set_analytics (a : Analytics) (p : Post) : Post :=
  mkPost (_id p) (title p) (content p) (platforms p) (media p) (hashtags p)
    (mentions p) (links p) (scheduledDate p) (publishedDate p) (p_status p)
    (postResults p) (createdBy p) a.

(** *** Virtuals and the pre-save hook *)

(** [result.engagement?.views || 0] and its siblings. *)
Definition counter (f : Engagement -> option Z) (r : PostResult) : Z :=
  or_zero (engagement r ≫= f).

(** The virtual [totalEngagement]: a [reduce] adding likes, comments and
    shares of every result. *)
Definition virtual_totalEngagement (rs : list PostResult) : Z :=
  fold_left (fun total r => total + counter likes r + counter comments r + counter shares r)
    rs 0.

(** The virtual [successfulPostsCount]. *)
Definition successfulPostsCount (rs : list PostResult) : nat :=
  length (filter (fun r => status r = "success") rs).

Definition sum_counter (f : Engagement -> option Z) (rs : list PostResult) : Z :=
  fold_left (fun total r => total + counter f r) rs 0.

(** [(a / b) * 100] *)
Definition percent (a b : Z) : Qc := (Qc_of_Z a / Qc_of_Z b * Qc_of_Z 100)%Qc.

(** [socialMediaPostSchema.pre('save', ...)]: reach and engagement are
    always rewritten; the two rates only when the new reach is positive. *)
Definition pre_save (p : Post) : Post :=
  let old := analytics p in
  let reach := sum_counter views (postResults p) in
  let eng := virtual_totalEngagement (postResults p) in
  let rate := if Z.ltb 0 reach then percent eng reach else engagementRate old in
  let totalClicks := sum_counter clicks (postResults p) in
  let ctr := if Z.ltb 0 reach then percent totalClicks reach else clickThroughRate old in
  set_analytics (mkAnalytics reach eng rate ctr) p.

(** *** The collection *)

Abbreviation Collection := (gmap PostId Post).

(** The documents of the collection, in the order the driver yields them. *)
Definition documents (db : Collection) : list Post := (map_to_list db).*2.

(** [Model.find(query)] *)
Definition find (query : Post -> bool) (db : Collection) : list Post :=
  List.filter query (documents db).

(** [Model.countDocuments(query)] *)
Definition countDocuments (query : Post -> bool) (db : Collection) : Z :=
  Z.of_nat (length (find query db)).

(** The update documents the scheduler sends: only [status],
    [publishedDate] and [postResults] are ever set. *)
Record Update := mkUpdate {
  u_status : option string;
  u_publishedDate : option Z;
  u_postResults : option (list PostResult)
}.

Definition apply_update (u : Update) (p : Post) : Post :=
  let p1 := match u_status u with Some s => set_status s p | None => p end in
  let p2 := match u_publishedDate u with
            | Some d => set_publishedDate (Some d) p1
            | None => p1
            end in
  match u_postResults u with
  | Some rs => set_postResults rs p2
  | None => p2
  end.

(** [Model.findByIdAndUpdate(id, update)]: the update is applied by the
    database; no document middleware ([pre('save')]) and, without
    [runValidators], no schema validator runs.  The second component is the
    updated document ([{ new: true }]), or [None] when the id matches
    nothing. *)
Definition findByIdAndUpdate (id : PostId) (u : Update) (db : Collection)
  : Collection * option Post :=
  match db !! id with
  | Some p => let p' := apply_update u p in (<[id := p']> db, Some p')
  | None => (db, None)
  end.

(** [doc.save()] of a document loaded from the collection: the pre-save
    hook runs, then the document is written back. *)
Definition save (p : Post) (db : Collection) : Collection * Post :=
  let p' := pre_save p in (<[_id p' := p']> db, p').

(** [Object.assign(existingResult, resultData)] for the fields a caller
    supplies. *)
Record ResultData := mkResultData {
  rd_postId : option string;
  rd_url : option string;
  rd_publishedAt : option Z;
  rd_engagement : option Engagement;
  rd_error : option string;
  rd_status : option string
}.

Definition assign_result (d : ResultData) (r : PostResult) : PostResult :=
  mkPostResult (platform r)
    (from_option Some (postId r) (rd_postId d))
    (from_option Some (url r) (rd_url d))
    (from_option Some (publishedAt r) (rd_publishedAt d))
    (from_option Some (engagement r) (rd_engagement d))
    (from_option Some (error r) (rd_error d))
    (default (status r) (rd_status d)).

(** [{ platform, ...resultData }] pushed as a new subdocument; a missing
    [status] takes the schema default. *)
Definition new_result (pf : string) (d : ResultData) : PostResult :=
  mkPostResult pf (rd_postId d) (rd_url d) (rd_publishedAt d) (rd_engagement d)
    (rd_error d) (default "pending" (rd_status d)).

(** Replace the first element satisfying [f]; [None] if there is none. *)
Fixpoint update_first {A} (f : A -> bool) (g : A -> A) (l : list A) : option (list A) :=
  match l with
  | [] => None
  | x :: l' => if f x then Some (g x :: l')
               else cons x <$> update_first f g l'
  end.

(** The instance method [updatePostResult(platform, resultData)]. *)
Definition updatePostResult (pf : string) (d : ResultData) (p : Post)
  (db : Collection) : Collection * Post :=
  let rs :=
    match update_first (fun r => String.eqb (platform r) pf) (assign_result d)
            (postResults p) with
    | Some rs' => rs'
    | None => (postResults p ++ [new_result pf d])%list
    end in
  save (set_postResults rs p) db.

(** *** Creating a document *)

(** A date as it arrives in a request: whether the text is ISO 8601, and the
    instant [new Date(text)] denotes ([None] for an invalid date). *)
Record DateString := mkDateString { isISO8601 : bool; instant : option Z }.

(** The object passed to [Model.create] by the scheduler. *)
Record PostInput := mkPostInput {
  i_title : option string;
  i_content : option string;
  i_platforms : list string;
  i_media : list MediaItem;
  i_hashtags : list string;
  i_mentions : list string;
  i_scheduledDate : option DateString;
  i_status : string;
  i_createdBy : UserId
}.

(** [required] with [maxlength] on a string path. *)
Definition required_max (n : nat) (v : option string) : bool :=
  match v with
  | Some s => negb (String.eqb s "") && Nat.leb (String.length s) n
  | None => false
  end.

Definition media_ok (m : MediaItem) : bool :=
  bool_decide (m_type m ∈ mediaTypeEnum) && negb (String.eqb (m_url m) "").

(** Casting and validation of a new document against the schema. *)
Definition schema_valid (i : PostInput) : bool :=
  required_max 200 (i_title i)
  && required_max 5000 (i_content i)
  && forallb (fun pf => bool_decide (pf ∈ supportedPlatforms)) (i_platforms i)
  && forallb media_ok (i_media i)
  && match i_scheduledDate i with
     | Some d => bool_decide (is_Some (instant d))
     | None => true
     end
  && bool_decide (i_status i ∈ statusEnum).

(** [Model.create(doc)]: validate, run the pre-save hook, insert under the
    freshly generated id [newId].  The setters [trim] and [lowercase] of
    [hashtags] and [mentions] are not modelled. *)
Definition create (newId : PostId) (i : PostInput) (d : Collection)
  : Completion (Collection * Post) :=
  if negb (schema_valid i) then
    Throw (new_Error "SocialMediaPost validation failed")
  else if bool_decide (is_Some (d !! newId)) then
    Throw (mkError "E11000 duplicate key error" (Some "11000"))
  else
    let doc :=
      pre_save
        (mkPost newId (default "" (i_title i)) (default "" (i_content i))
           (i_platforms i) (i_media i) (i_hashtags i) (i_mentions i) []
           (i_scheduledDate i ≫= instant) None (i_status i) [] (i_createdBy i)
           defaultAnalytics) in
    Return (<[newId := doc]> d, doc).

End SocialMediaPost.

(** ** services/schedulerService.js *)

Module SchedulerService.

Import SocialMediaPost.

(** The service object together with the collection it talks to.
    [cronTasks] counts the callbacks registered with [cron.schedule].
    Calls to the logger are not part of the state. *)
Record State := mkState {
  db : Collection;
  scheduledJobs : gmap PostId Post;
  isInitialized : bool;
  cronTasks : nat
}.

(** [constructor()] over an existing collection. *)
Definition new_service (posts : Collection) : State := mkState posts ∅ false 0.

Definition set_db (d : Collection) (st : State) : State :=
  mkState d (scheduledJobs st) (isInitialized st) (cronTasks st).

Definition set_scheduledJobs (c : gmap PostId Post) (st : State) : State :=
  mkState (db st) c (isInitialized st) (cronTasks st).

(** [{ $lte: now }] and [{ $gte: now }] on an optional date: a missing
    date matches neither. *)
Definition date_lte (d : option Z) (now : Z) : bool :=
  match d with Some t => Z.leb t now | None => false end.

Definition date_gte (d : option Z) (now : Z) : bool :=
  match d with Some t => Z.leb now t | None => false end.

(** [{ status: 'scheduled', scheduledDate: { $lte: now } }] *)
Definition due_query (now : Z) (p : Post) : bool :=
  String.eqb (p_status p) "scheduled" && date_lte (scheduledDate p) now.

(** [{ status: 'scheduled', scheduledDate: { $gte: now } }] *)
Definition upcoming_query (now : Z) (p : Post) : bool :=
  String.eqb (p_status p) "scheduled" && date_gte (scheduledDate p) now.

(** [async loadScheduledPosts()] *)
Definition loadScheduledPosts (st : State) (now : Z) : State :=
  let scheduledPosts := find (upcoming_query now) (db st) in
  set_scheduledJobs
    (fold_left (fun jobs post => <[_id post := post]> jobs) scheduledPosts ∅) st.

(** [startScheduler()]: registers one more every-minute callback. *)
Definition startScheduler (st : State) : State :=
  mkState (db st) (scheduledJobs st) (isInitialized st) (S (cronTasks st)).

(** [async initialize()] *)
Definition initialize (st : State) (now : Z) : State :=
  if isInitialized st then st
  else
    let st1 := loadScheduledPosts st now in
    let st2 := startScheduler st1 in
    mkState (db st2) (scheduledJobs st2) true (cronTasks st2).

(** The argument of [postToPlatform] built from a post; the link is
    [post.links?.[0]?.url]. *)
Definition postData_of (post : Post) : PostData :=
  {| pd_content := content post;
     pd_media := media post;
     pd_hashtags := hashtags post;
     pd_mentions := mentions post;
     pd_link := l_url <$> head (links post) |}.

Definition publishing_update : Update := mkUpdate (Some "publishing") None None.

Definition published_update (now : Z) (rs : list PostResult) : Update :=
  mkUpdate (Some "published") (Some now) (Some rs).

(** The update of the handler in [processScheduledPosts]; [post.platforms[0]]
    of an empty list is represented by the empty string. *)
Definition failed_update (post : Post) (now : Z) (err : Js.Error) : Update :=
  mkUpdate (Some "failed") None
    (Some [mkPostResult (default "" (head (platforms post))) None None (Some now)
             None (Some (Js.message err)) "failed"]).

Section WithServices.

Variable services : SocialMediaService.Services.

(** The body of the [for (const platform of post.platforms)] loop: the
    entry pushed to [postResults].  The clock is read as [now] throughout one
    run of the processor. *)
Definition attempt (post : Post) (now : Z) (pf : string) : PostResult :=
  match SocialMediaService.postToPlatform services pf (postData_of post) None with
  | Return result =>
      {| platform := pf;
         postId := SocialMediaService.postId result;
         url := SocialMediaService.url result;
         publishedAt := Some now;
         engagement := SocialMediaService.engagement result;
         error := None;
         status := "success" |}
  | Throw err =>
      {| platform := pf;
         postId := None;
         url := None;
         publishedAt := Some now;
         engagement := None;
         error := Some (Js.message err);
         status := "failed" |}
  end.

Fixpoint publish_loop (post : Post) (now : Z) (pfs : list string)
  (postResults : list PostResult) : list PostResult :=
  match pfs with
  | [] => postResults
  | pf :: rest => publish_loop post now rest (postResults ++ [attempt post now pf])%list
  end.

(** [async processScheduledPost(post)].  The collection calls are taken to
    succeed, so the function always returns. *)
Definition processScheduledPost (st : State) (post : Post) (now : Z)
  : Completion State :=
  let db1 := (findByIdAndUpdate (_id post) publishing_update (db st)).1 in
  let postResults := publish_loop post now (platforms post) [] in
  let db2 := (findByIdAndUpdate (_id post) (published_update now postResults) db1).1 in
  Return (mkState db2 (delete (_id post) (scheduledJobs st))
            (isInitialized st) (cronTasks st)).

(** One iteration of [for (const post of duePosts)], with its handler. *)
Definition process_one (st : State) (post : Post) (now : Z) : State :=
  match processScheduledPost st post now with
  | Return st' => st'
  | Throw err =>
      set_db (findByIdAndUpdate (_id post) (failed_update post now err) (db st)).1 st
  end.

(** [async processScheduledPosts()], the body of one tick at time [now].
    The second component lists, in order, the posts handed to
    [processScheduledPost]. *)
Definition processScheduledPosts (st : State) (now : Z) : State * list Post :=
  let duePosts := find (due_query now) (db st) in
  if Nat.eqb (length duePosts) 0 then (st, [])
  else
    fold_left
      (fun acc post => (process_one acc.1 post now, (acc.2 ++ [post])%list))
      duePosts (st, []).

(** One firing of the cron timer: every registered callback runs
    [processScheduledPosts]. *)
Fixpoint fire (tasks : nat) (st : State) (now : Z) : State * list Post :=
  match tasks with
  | O => (st, [])
  | S n =>
      let r1 := processScheduledPosts st now in
      let r2 := fire n r1.1 now in
      (r2.1, (r1.2 ++ r2.2)%list)
  end.

Definition tick (st : State) (now : Z) : State * list Post :=
  fire (cronTasks st) st now.

(** *** The processor as a sequence of awaited effects

    Each [await] of [processScheduledPost] is a point where the process can
    stop.  [steps] lists the effects in program order; [exec] is the effect
    of one of them on the state (a call to a platform changes nothing
    locally), and [interrupted k] is the state reached when the process stops
    after [k] effects. *)
Inductive Step :=
| StoreUpdate (id : PostId) (u : Update)
| Publish (pf : string)
| CacheDelete (id : PostId).

Definition exec (st : State) (s : Step) : State :=
  match s with
  | StoreUpdate id u => set_db (findByIdAndUpdate id u (db st)).1 st
  | Publish _ => st
  | CacheDelete id => set_scheduledJobs (delete id (scheduledJobs st)) st
  end.

Definition steps (post : Post) (now : Z) : list Step :=
  (StoreUpdate (_id post) publishing_update
   :: (Publish <$> platforms post)
   ++ [StoreUpdate (_id post)
         (published_update now (publish_loop post now (platforms post) []));
       CacheDelete (_id post)])%list.

Definition interrupted (st : State) (post : Post) (now : Z) (k : nat) : State :=
  fold_left exec (take k (steps post now)) st.

End WithServices.

(** [pauseScheduler()] and [resumeScheduler()]: a log line each. *)
Definition pauseScheduler (st : State) : State := st.

Definition resumeScheduler (st : State) : State := st.

(** [async cancelScheduledPost(postId)] *)
Definition cancelScheduledPost (st : State) (postId : PostId)
  : State * option Post :=
  let r := findByIdAndUpdate postId (mkUpdate (Some "cancelled") None None) (db st) in
  match r.2 with
  | Some post =>
      (mkState r.1 (delete postId (scheduledJobs st)) (isInitialized st) (cronTasks st),
       Some post)
  | None => (st, None)
  end.

(** [getStatus()]; the ISO string of the timestamp is represented by its
    instant. *)
Record Status := mkStatus {
  st_isInitialized : bool;
  scheduledJobsCount : nat;
  timestamp : Z
}.

Definition getStatus (st : State) (now : Z) : Status :=
  {| st_isInitialized := isInitialized st;
     scheduledJobsCount := size (scheduledJobs st);
     timestamp := now |}.

(** The [$match]/[$group] pipeline of [getSchedulerStats]: one
    [{ _id: status, count }] per status among the user's posts. *)
Definition count_by_status (posts : list Post) : gmap string Z :=
  fold_left (fun m p => <[p_status p := default 0 (m !! p_status p) + 1]> m) posts ∅.

Definition aggregate_status (userId : UserId) (d : Collection) : list (string * Z) :=
  map_to_list
    (count_by_status (find (fun p => Nat.eqb (createdBy p) userId) d)).

(** [weekFromNow.setDate(weekFromNow.getDate() + 7)], for a local time zone
    without clock changes in that week. *)
Definition weekFromNow (now : Z) : Z := now + 7 * 86400000.

(** [async getSchedulerStats(userId)]; the result object is a map from
    property names to numbers. *)
Definition getSchedulerStats (st : State) (userId : UserId) (now : Z)
  : gmap string Z :=
  let stats := aggregate_status userId (db st) in
  let result0 : gmap string Z :=
    <["scheduled" := 0]> (<["published" := 0]> (<["failed" := 0]>
      (<["cancelled" := 0]> (<["total" := 0]> ∅)))) in
  let result :=
    fold_left
      (fun result stat =>
         let result1 := <[stat.1 := stat.2]> result in
         <["total" := default 0 (result1 !! "total") + stat.2]> result1)
      stats result0 in
  let upcoming :=
    countDocuments
      (fun p => Nat.eqb (createdBy p) userId
                && String.eqb (p_status p) "scheduled"
                && date_lte (scheduledDate p) (weekFromNow now))
      (db st) in
  <["upcoming" := upcoming]> result.

(** [{ ...postData, status: 'scheduled' }] *)
Definition with_status (s : string) (i : PostInput) : PostInput :=
  mkPostInput (i_title i) (i_content i) (i_platforms i) (i_media i)
    (i_hashtags i) (i_mentions i) (i_scheduledDate i) s (i_createdBy i).

(** [async schedulePost(postData)]; the handler logs and rethrows. *)
Definition schedulePost (st : State) (newId : PostId) (postData : PostInput)
  : Completion (State * Post) :=
  try_catch
    (created ← create newId (with_status "scheduled" postData) (db st);
     let scheduledPost := created.2 in
     Return (mkState created.1
               (<[_id scheduledPost := scheduledPost]> (scheduledJobs st))
               (isInitialized st) (cronTasks st),
             scheduledPost))
    (fun err => Throw err).

End SchedulerService.

(** ** routes/scheduler.js and controllers/schedulerController.js *)

Module SchedulerApi.

Import SocialMediaPost SchedulerService.

(** A body field as express-validator sees it: missing, present with a
    value of the wrong JSON type, or present. *)
Inductive Field (A : Type) : Type :=
| Absent
| Malformed
| Present (a : A).

Arguments Absent {A}.
Arguments Malformed {A}.
Arguments Present {A} a.

(** [req.body] of a job request. *)
Record Body := mkBody {
  b_title : option string;
  b_content : option string;
  b_platforms : Field (list string);
  b_scheduledDate : option DateString;
  b_media : Field (list MediaItem);
  b_hashtags : Field (list string);
  b_mentions : Field (list string)
}.

(** One element of [errors.array()]. *)
Record ValidationError := mkVErr { param : string; msg : string }.

(** The two errors the scheduling interface is specified to raise, as the
    chain reports them. *)
Definition InvalidScheduleTime : ValidationError :=
  mkVErr "scheduledDate" "Scheduled date must be in the future".

Definition NoTargetsSpecified : ValidationError :=
  mkVErr "platforms" "At least one platform is required".

(** [body('content').notEmpty()...isLength({ max: 5000 })...] *)
Definition check_content (v : option string) : list ValidationError :=
  let s := default "" v in
  (if String.eqb s "" then [mkVErr "content" "Post content is required"] else [])
  ++ (if Nat.leb (String.length s) 5000 then []
      else [mkVErr "content" "Content cannot exceed 5000 characters"]).

(** [body('platforms').isArray({ min: 1 })...] *)
Definition check_platforms (v : Field (list string)) : list ValidationError :=
  match v with
  | Present l =>
      if Nat.leb 1 (length l) then []
      else [mkVErr "platforms" "At least one platform is required"]
  | _ => [mkVErr "platforms" "At least one platform is required"]
  end.

(** [body('platforms.*').isIn([...])...]: one check per array element. *)
Fixpoint check_each_platform (i : nat) (l : list string) : list ValidationError :=
  match l with
  | [] => []
  | pf :: rest =>
      (if bool_decide (pf ∈ supportedPlatforms) then []
       else [mkVErr ("platforms[" ++ pretty i ++ "]") "Invalid platform"])
      ++ check_each_platform (S i) rest
  end.

Definition check_platform_items (v : Field (list string)) : list ValidationError :=
  match v with
  | Present l => check_each_platform 0 l
  | _ => []
  end.

(** The custom validator: it throws when
    [new Date(value) <= new Date()]; a comparison with an invalid date is
    false. *)
Definition date_not_after (d : option Z) (now : Z) : bool :=
  match d with
  | Some t => Z.leb t now
  | None => false
  end.

(** [body('scheduledDate').isISO8601()....custom(...)] *)
Definition check_scheduledDate (v : option DateString) (now : Z)
  : list ValidationError :=
  (if default false (isISO8601 <$> v) then []
   else [mkVErr "scheduledDate" "Valid scheduled date is required"])
  ++ (if date_not_after (v ≫= instant) now
      then [mkVErr "scheduledDate" "Scheduled date must be in the future"]
      else []).

(** [body(name).optional().isArray()...] *)
Definition check_optional_array {A} (name message : string) (v : Field A)
  : list ValidationError :=
  match v with
  | Malformed => [mkVErr name message]
  | _ => []
  end.

(** [scheduledJobValidation], run at clock reading [now]. *)
Definition scheduledJobValidation (b : Body) (now : Z) : list ValidationError :=
  check_content (b_content b)
  ++ check_platforms (b_platforms b)
  ++ check_platform_items (b_platforms b)
  ++ check_scheduledDate (b_scheduledDate b) now
  ++ check_optional_array "media" "Media must be an array" (b_media b)
  ++ check_optional_array "hashtags" "Hashtags must be an array" (b_hashtags b)
  ++ check_optional_array "mentions" "Mentions must be an array" (b_mentions b).

Definition field_list {A} (v : Field (list A)) : list A :=
  match v with
  | Present l => l
  | _ => []
  end.

(** [{ ...req.body, createdBy: req.user.id }] for a body that passed the
    validation chain.  The schema default ['draft'] stands for the absent
    [status]; [schedulePost] overwrites it. *)
Definition jobData (b : Body) (user : UserId) : PostInput :=
  mkPostInput (b_title b) (b_content b) (field_list (b_platforms b))
    (field_list (b_media b)) (field_list (b_hashtags b))
    (field_list (b_mentions b)) (b_scheduledDate b) "draft" user.

(** What a handler sends: [res.status(code).json(...)]. *)
Inductive Payload :=
| Errors (errors : list ValidationError)
| Data (message : string) (data : Post)
| Message (success : bool) (message : string) (error : option string).

Record Response := mkResponse { statusCode : nat; payload : Payload }.

(** [POST /jobs]: the validation chain followed by [createScheduledJob]. *)
Definition createScheduledJob (st : State) (now : Z) (newId : PostId)
  (user : UserId) (body : Body) : State * Response :=
  match scheduledJobValidation body now with
  | (_ :: _) as errors => (st, mkResponse 400 (Errors errors))
  | [] =>
      match schedulePost st newId (jobData body user) with
      | Return r => (r.1, mkResponse 201 (Data "Job scheduled successfully" r.2))
      | Throw err =>
          (st, mkResponse 500
                 (Message false "Server error creating scheduled job"
                    (Some (Js.message err))))
      end
  end.

(** [DELETE /jobs/:id]: [cancelScheduledJob]. *)
Definition cancelScheduledJob (st : State) (id : PostId) : State * Response :=
  let r := cancelScheduledPost st id in
  match r.2 with
  | None => (r.1, mkResponse 404 (Message false "Scheduled job not found" None))
  | Some job => (r.1, mkResponse 200 (Data "Scheduled job cancelled successfully" job))
  end.

(** [PUT /pause] and [PUT /resume]. *)
Definition pauseSchedulerHandler (st : State) : State * Response :=
  (pauseScheduler st, mkResponse 200 (Message true "Scheduler paused successfully" None)).

Definition resumeSchedulerHandler (st : State) : State * Response :=
  (resumeScheduler st, mkResponse 200 (Message true "Scheduler resumed successfully" None)).

End SchedulerApi.

(** ** Concrete scenarios *)

Module Scenario.

Import SocialMediaPost SchedulerService SchedulerApi.

Definition facebook_ok : SocialMediaService.ServiceResult :=
  SocialMediaService.mkServiceResult (Some "fb_1") (Some "https://facebook.com/fb_1")
    (Some (mkEngagement (Some 0) (Some 0) (Some 0) None None)) None.

(** Facebook accepts the post; every other platform times out. *)
Definition facebook_only : SocialMediaService.Services :=
  fun name _ _ =>
    if String.eqb name "facebook" then Return facebook_ok
    else Throw (new_Error "Twitter API error: timeout of 30000ms exceeded").

(** No platform can be reached. *)
Definition all_down : SocialMediaService.Services :=
  fun _ _ _ => Throw (new_Error "Twitter API error: timeout of 30000ms exceeded").

Definition hello : PostData := mkPostData "hello" [] [] [] None.

(** A scheduled post for Facebook and Twitter, due at instant 1000. *)
Definition post_fb_tw : Post :=
  mkPost 1%nat "Launch" "hello" ["facebook"; "twitter"] [] [] [] [] (Some 1000) None
    "scheduled" [] 7%nat defaultAnalytics.

(** A scheduled post for Twitter alone, due at instant 1000. *)
Definition post_tw : Post :=
  mkPost 2%nat "Launch" "hello" ["twitter"] [] [] [] [] (Some 1000) None
    "scheduled" [] 7%nat defaultAnalytics.

(** A post that was published at instant 900. *)
Definition post_done : Post :=
  mkPost 3%nat "Launch" "hello" ["facebook"] [] [] [] [] (Some 800) (Some 900)
    "published"
    [mkPostResult "facebook" (Some "fb_1") (Some "https://facebook.com/fb_1")
       (Some 900) (Some (mkEngagement (Some 0) (Some 0) (Some 0) None None))
       None "success"]
    7%nat defaultAnalytics.

(** A post whose processing has begun. *)
Definition post_busy : Post := set_status "publishing" post_tw.

Definition running (posts : Collection) : State := mkState posts posts true 1.

Definition st_fb_tw : State := running {[ 1%nat := post_fb_tw ]}.

(** The service as [initialize] leaves it at instant 500 over a collection
    holding [post_fb_tw]. *)
Definition st_started : State := initialize (new_service {[ 1%nat := post_fb_tw ]}) 500.
Definition st_tw : State := running {[ 2%nat := post_tw ]}.
Definition st_done : State := mkState {[ 3%nat := post_done ]} ∅ true 1.
Definition st_busy : State := mkState {[ 2%nat := post_busy ]} ∅ true 1.

(** A result update reporting [v] views and [l] likes. *)
Definition seen (v l : Z) : ResultData :=
  mkResultData None None None (Some (mkEngagement (Some l) None None (Some v) None))
    None (Some "success").

Definition post_new : Post :=
  mkPost 4%nat "Launch" "hello" ["facebook"] [] [] [] [] None None
    "published" [] 7%nat defaultAnalytics.

Definition db_new : Collection := {[ 4%nat := post_new ]}.

(** Two successive calls of [updatePostResult] on the same document ... *)
Definition first_update : Collection * Post :=
  updatePostResult "facebook" (seen 10 5) post_new db_new.

Definition second_update : Collection * Post :=
  updatePostResult "facebook" (seen 0 5) first_update.2 first_update.1.

(** ... and a single call that leads to the same [postResults]. *)
Definition single_update : Collection * Post :=
  updatePostResult "facebook" (seen 0 5) post_new db_new.

(** A post saved with a result of 100 views and 5 likes, then scheduled
    again for instant 1000. *)
Definition post_again : Post :=
  mkPost 5%nat "Launch" "hello" ["facebook"] [] [] [] [] (Some 1000) (Some 900)
    "scheduled"
    [mkPostResult "facebook" (Some "fb_0") (Some "https://facebook.com/fb_0")
       (Some 900) (Some (mkEngagement (Some 5) None None (Some 100) None))
       None "success"]
    7%nat (mkAnalytics 100 5 (percent 5 100) 0%Qc).

Definition st_again : State := running {[ 5%nat := post_again ]}.

(** A post scheduled one millisecond more than seven days after instant 0. *)
Definition post_next_week : Post :=
  mkPost 6%nat "Launch" "hello" ["facebook"] [] [] [] [] (Some 604800001) None
    "scheduled" [] 7%nat defaultAnalytics.

Definition st_next_week : State := running {[ 6%nat := post_next_week ]}.

(** Request bodies for [POST /jobs], read at instant 5000. *)
Definition body_at (d : option Z) (pfs : list string) : Body :=
  mkBody (Some "Launch") (Some "hello") (Present pfs)
    (Some (mkDateString true d)) Absent Absent Absent.

(** Scheduled one second in the past. *)
Definition body_past : Body := body_at (Some 4000) ["facebook"; "twitter"].

(** No target platform. *)
Definition body_no_targets : Body := body_at (Some 9000) [].

(** A valid request for a future instant. *)
Definition body_future : Body := body_at (Some 9000) ["facebook"; "twitter"].

Definition st_empty : State := mkState ∅ ∅ true 1.

End Scenario.

(** ** More of services/schedulerService.js: the read queries *)

Module SchedulerQueries.

Import SocialMediaPost SchedulerService.

(** The ascending order of the database on an optional date: a document
    without the field sorts before every dated one. *)
Definition date_key_le (a b : option Z) : bool :=
  match a, b with
  | None, _ => true
  | Some _, None => false
  | Some x, Some y => Z.leb x y
  end.

(** [.sort({ scheduledDate: 1 })] *)
Definition by_scheduledDate : relation Post :=
  fun p q => date_key_le (scheduledDate p) (scheduledDate q).

#[export] Instance by_scheduledDate_dec : RelDecision by_scheduledDate.
Proof. intros p q. unfold by_scheduledDate. apply _. Defined.

(** The [filters] argument of [getScheduledPosts].  A date filter is absent
    ([None]), or a text whose [new Date] is an instant or an invalid date
    ([Some None]). *)
Record Filters := mkFilters {
  f_startDate : option (option Z);
  f_endDate : option (option Z);
  f_platform : option string
}.

Definition bound_ok (cmp : Z -> Z -> bool) (bound : option (option Z)) (t : Z) : bool :=
  match bound with
  | Some (Some b) => cmp b t
  | _ => true
  end.

(** [query.scheduledDate = { $gte, $lte }], present only when one of the two
    filters is. *)
Definition range_ok (f : Filters) (p : Post) : bool :=
  match f_startDate f, f_endDate f with
  | None, None => true
  | s, e =>
      match scheduledDate p with
      | Some t => bound_ok Z.leb s t && bound_ok Z.geb e t
      | None => false
      end
  end.

(** [query.platforms = filters.platform]: the array contains the value. *)
Definition platform_ok (f : Filters) (p : Post) : bool :=
  match f_platform f with
  | Some pf => bool_decide (pf ∈ platforms p)
  | None => true
  end.

Definition scheduled_query (userId : UserId) (f : Filters) (p : Post) : bool :=
  Nat.eqb (createdBy p) userId
  && String.eqb (p_status p) "scheduled"
  && range_ok f p
  && platform_ok f p.

(** An invalid date in the query makes the driver reject it. *)
Definition castable (f : Filters) : bool :=
  negb (bool_decide (f_startDate f = Some None))
  && negb (bool_decide (f_endDate f = Some None)).

(** [async getScheduledPosts(userId, filters = {})] *)
Definition getScheduledPosts (st : State) (userId : UserId) (f : Filters)
  : Completion (list Post) :=
  try_catch
    (if castable f then
       Return (merge_sort by_scheduledDate (find (scheduled_query userId f) (db st)))
     else Throw (new_Error "Cast to date failed for path scheduledDate"))
    (fun err => Throw err).

(** [async getNextScheduledTime(userId)] *)
Definition getNextScheduledTime (st : State) (userId : UserId) : option Z :=
  let sorted :=
    merge_sort by_scheduledDate
      (find (fun p => Nat.eqb (createdBy p) userId
                      && String.eqb (p_status p) "scheduled") (db st)) in
  match head sorted with
  | Some nextPost => scheduledDate nextPost
  | None => None
  end.

End SchedulerQueries.

(** ** More of controllers/schedulerController.js *)

Module SchedulerHandlers.

Import SocialMediaPost SchedulerService SchedulerApi SchedulerQueries.

(** [req.query] of [GET /jobs].  [q_limit] is absent, or a text whose
    [parseInt] is a number or [NaN] ([Some None]). *)
Record JobsQuery := mkJobsQuery {
  q_platform : option string;
  q_startDate : option (option Z);
  q_endDate : option (option Z);
  q_limit : option (option Z)
}.

(** [parseInt(limit)] with [limit = 20] by default. *)
Definition parsed_limit (q : JobsQuery) : option Z :=
  match q_limit q with
  | None => Some 20
  | Some n => n
  end.

(** [array.slice(0, end)]: [NaN] counts as 0, a negative [end] is taken from
    the end of the array. *)
Definition slice0 {A} (n : option Z) (l : list A) : list A :=
  match n with
  | None => []
  | Some k =>
      if Z.ltb k 0 then take (Z.to_nat (Z.of_nat (length l) + k)) l
      else take (Z.to_nat k) l
  end.

(** [jobs.length > parseInt(limit)]; a comparison with [NaN] is false. *)
Definition has_more (n : option Z) (total : nat) : bool :=
  match n with
  | None => false
  | Some k => Z.ltb k (Z.of_nat total)
  end.

Record JobsPage := mkJobsPage {
  data : list Post;
  total : nat;
  limit : option Z;
  hasMore : bool
}.

Inductive JobsResponse :=
| JobsOk (page : JobsPage)
| JobsError (message : string) (error : string).

(** [GET /jobs]: [getScheduledJobs]. *)
Definition getScheduledJobs (st : State) (user : UserId) (q : JobsQuery)
  : JobsResponse :=
  let filters := mkFilters (q_startDate q) (q_endDate q) (q_platform q) in
  match getScheduledPosts st user filters with
  | Return jobs =>
      JobsOk (mkJobsPage (slice0 (parsed_limit q) jobs) (length jobs)
                (parsed_limit q) (has_more (parsed_limit q) (length jobs)))
  | Throw err => JobsError "Server error getting scheduled jobs" (Js.message err)
  end.

(** A job id of a request: [None] when the text cannot be cast to an object
    id, in which case the database call rejects. *)
Definition cancel_param (st : State) (jobId : option PostId)
  : Completion (State * option Post) :=
  match jobId with
  | Some id => Return (cancelScheduledPost st id)
  | None => Throw (new_Error "Cast to ObjectId failed for path _id")
  end.

Record BulkAcc := mkBulkAcc {
  acc_state : State;
  cancelledJobs : list Post;
  failedJobs : list (option PostId)
}.

(** The body of [for (const jobId of jobIds)]. *)
Definition bulk_step (acc : BulkAcc) (jobId : option PostId) : BulkAcc :=
  match cancel_param (acc_state acc) jobId with
  | Return (st', Some job) =>
      mkBulkAcc st' (cancelledJobs acc ++ [job])%list (failedJobs acc)
  | Return (st', None) =>
      mkBulkAcc st' (cancelledJobs acc) (failedJobs acc ++ [jobId])%list
  | Throw _ =>
      mkBulkAcc (acc_state acc) (cancelledJobs acc) (failedJobs acc ++ [jobId])%list
  end.

Inductive BulkResponse :=
| BulkRejected (message : string)
| BulkDone (message : string) (cancelled : list Post) (failed : list (option PostId)).

Definition bulk_message (cancelled failed : nat) : string :=
  "Cancelled " ++ pretty cancelled ++ " jobs"
  ++ (if Nat.ltb 0 failed then ", " ++ pretty failed ++ " failed" else "").

(** [POST /jobs/bulk-cancel]: [bulkCancelJobs]. *)
Definition bulkCancelJobs (st : State) (jobIds : Field (list (option PostId)))
  : State * BulkResponse :=
  match jobIds with
  | Present ((_ :: _) as ids) =>
      let acc := fold_left bulk_step ids (mkBulkAcc st [] []) in
      (acc_state acc,
       BulkDone (bulk_message (length (cancelledJobs acc)) (length (failedJobs acc)))
         (cancelledJobs acc) (failedJobs acc))
  | _ => (st, BulkRejected "Job IDs array is required")
  end.

Definition field_or {A} (old : A) (v : Field A) : A :=
  match v with
  | Present a => a
  | _ => old
  end.

(** The [$set] of the fields a request body carries. *)
Definition apply_body (b : Body) (p : Post) : Post :=
  mkPost (_id p) (default (title p) (b_title b)) (default (content p) (b_content b))
    (field_or (platforms p) (b_platforms b)) (field_or (media p) (b_media b))
    (field_or (hashtags p) (b_hashtags b)) (field_or (mentions p) (b_mentions b))
    (links p)
    (match b_scheduledDate b with
     | Some d => instant d
     | None => scheduledDate p
     end)
    (publishedDate p) (p_status p) (postResults p) (createdBy p) (analytics p).

Section WithValidators.

(** The update validators the library runs for [runValidators: true], as a
    predicate on the update. *)
Variable updateValidators : Body -> bool.

(** [Model.findOneAndUpdate({ _id, createdBy, status: 'scheduled' }, updates,
    { new: true, runValidators: true })]: the update is cast and validated
    first, then applied to the matching document, if any. *)
Definition findOneAndUpdate_scheduled (id : PostId) (user : UserId) (b : Body)
  (d : Collection) : Completion (Collection * option Post) :=
  if bool_decide (b_scheduledDate b ≫= instant = None ∧ is_Some (b_scheduledDate b))
  then Throw (new_Error "Cast to date failed for path scheduledDate")
  else if negb (updateValidators b) then Throw (new_Error "Validation failed")
  else
    match d !! id with
    | Some p =>
        if Nat.eqb (createdBy p) user && String.eqb (p_status p) "scheduled"
        then Return (<[id := apply_body b p]> d, Some (apply_body b p))
        else Return (d, None)
    | None => Return (d, None)
    end.

(** [PUT /jobs/:id]: the validation chain followed by [updateScheduledJob]. *)
Definition updateScheduledJob (st : State) (now : Z) (id : PostId)
  (user : UserId) (body : Body) : State * Response :=
  match scheduledJobValidation body now with
  | (_ :: _) as errors => (st, mkResponse 400 (Errors errors))
  | [] =>
      match findOneAndUpdate_scheduled id user body (db st) with
      | Return (d, Some job) =>
          (loadScheduledPosts (set_db d st) now,
           mkResponse 200 (Data "Scheduled job updated successfully" job))
      | Return (d, None) =>
          (st, mkResponse 404 (Message false "Scheduled job not found" None))
      | Throw err =>
          (st, mkResponse 500
                 (Message false "Server error updating scheduled job"
                    (Some (Js.message err))))
      end
  end.

End WithValidators.

End SchedulerHandlers.

(** ** controllers/socialMediaController.js *)

Module SocialMediaController.

Import SocialMediaPost SchedulerService SchedulerApi.

(** [req.body] of [POST /post/:platform]; [productId] is left out with the
    [product] field of the document. *)
Record PostBody := mkPostBody {
  pb_title : option string;
  pb_content : option string;
  pb_media : option (list MediaItem);
  pb_hashtags : option (list string);
  pb_mentions : option (list string);
  pb_link : option string;
  pb_scheduledDate : option DateString
}.

(** Validation of the [postResults] of a new document. *)
Definition results_valid (rs : list PostResult) : bool :=
  forallb (fun r => bool_decide (platform r ∈ supportedPlatforms)
                    && bool_decide (status r ∈ resultStatusEnum)) rs.

(** [Model.create(doc)] for a document that also carries [publishedDate]
    and [postResults]. *)
Definition create_with (newId : PostId) (i : PostInput) (published : option Z)
  (results : list PostResult) (d : Collection) : Completion (Collection * Post) :=
  if negb (schema_valid i && results_valid results) then
    Throw (new_Error "SocialMediaPost validation failed")
  else if bool_decide (is_Some (d !! newId)) then
    Throw (mkError "E11000 duplicate key error" (Some "11000"))
  else
    let doc :=
      pre_save
        (mkPost newId (default "" (i_title i)) (default "" (i_content i))
           (i_platforms i) (i_media i) (i_hashtags i) (i_mentions i) []
           (i_scheduledDate i ≫= instant) published (i_status i) results
           (i_createdBy i) defaultAnalytics) in
    Return (<[newId := doc]> d, doc).

Inductive PostResponse :=
| InvalidRequest (errors : list ValidationError)
| Unsupported (message : string)
| Scheduled (post : Post)
| Posted (post : Post) (result : SocialMediaService.PlatformResponse)
| NotPosted (error : option string) (post : Post)
| ServerError (error : string).

(** [res.status(...)] of each answer. *)
Definition http_status (r : PostResponse) : nat :=
  match r with
  | InvalidRequest _ => 400
  | Unsupported _ => 400
  | Scheduled _ => 201
  | Posted _ _ => 200
  | NotPosted _ _ => 400
  | ServerError _ => 500
  end.

(** The [postData] object of the handler; an absent [content] is passed on
    as the empty text. *)
Definition postData_of_body (b : PostBody) : PostData :=
  {| pd_content := default "" (pb_content b);
     pd_media := default [] (pb_media b);
     pd_hashtags := default [] (pb_hashtags b);
     pd_mentions := default [] (pb_mentions b);
     pd_link := pb_link b |}.

(** [{ ...postData, platforms: [platform], status, createdBy, ... }]; the
    [link] property is not a path of the schema and is dropped. *)
Definition document_of_body (b : PostBody) (pf : string) (date : option DateString)
  (s : string) (user : UserId) : PostInput :=
  mkPostInput (Some (or_string (pb_title b) "Social Media Post")) (pb_content b)
    [pf] (default [] (pb_media b)) (default [] (pb_hashtags b))
    (default [] (pb_mentions b)) date s user.

Section WithServices.

Variable services : SocialMediaService.Services.

(** [exports.postToPlatform]; [errors] is [validationResult(req)]. *)
Definition postToPlatform (st : State) (now : Z) (newId : PostId) (user : UserId)
  (errors : list ValidationError) (pf : string) (b : PostBody)
  : State * PostResponse :=
  match errors with
  | _ :: _ => (st, InvalidRequest errors)
  | [] =>
      if negb (bool_decide (pf ∈ supportedPlatforms)) then
        (st, Unsupported ("Platform " ++ pf ++ " is not supported"))
      else
        match pb_scheduledDate b with
        | Some d =>
            match create newId (document_of_body b pf (Some d) "scheduled" user)
                    (db st) with
            | Return r => (set_db r.1 st, Scheduled r.2)
            | Throw err => (st, ServerError (Js.message err))
            end
        | None =>
            match SocialMediaService.postToPlatform services pf (postData_of_body b)
                    None with
            | Return result =>
                if SocialMediaService.success result then
                  match create_with newId (document_of_body b pf None "published" user)
                          (Some now)
                          [mkPostResult pf (SocialMediaService.postId result)
                             (SocialMediaService.url result) (Some now)
                             (SocialMediaService.engagement result) None "success"]
                          (db st) with
                  | Return r => (set_db r.1 st, Posted r.2 result)
                  | Throw err => (st, ServerError (Js.message err))
                  end
                else
                  match create_with newId (document_of_body b pf None "failed" user)
                          None
                          [mkPostResult pf None None (Some now) None
                             (SocialMediaService.error result) "failed"]
                          (db st) with
                  | Return r => (set_db r.1 st, NotPosted (SocialMediaService.error result) r.2)
                  | Throw err => (st, ServerError (Js.message err))
                  end
            | Throw err => (st, ServerError (Js.message err))
            end
        end
  end.

End WithServices.

(** [exports.deleteScheduledPost]:
    [findOneAndDelete({ _id, createdBy, status: 'scheduled' })]; the answer is
    the status code. *)
Definition deleteScheduledPost (st : State) (id : PostId) (user : UserId)
  : State * nat :=
  match db st !! id with
  | Some p =>
      if Nat.eqb (createdBy p) user && String.eqb (p_status p) "scheduled"
      then (set_db (delete id (db st)) st, 200%nat)
      else (st, 404%nat)
  | None => (st, 404%nat)
  end.

End SocialMediaController.

(** ** The platform services that need media *)

Module Adapters.

Import SocialMediaService.

Definition Buffer := string.

(** The world outside the process: the environment variables, whether the
    optional Instagram package was loaded, and what each remote call settles
    to.  An upload oracle stands for the awaited call together with the reads
    of the identifier from its response. *)
Record World := mkWorld {
  env : string -> option string;
  IgApiClient : bool;
  download : string -> Completion Buffer;
  youtube_upload : string -> list string -> option string -> Completion (option string);
  tiktok_upload : Buffer -> string -> string -> Completion (option string);
  ig_generateDevice : option string -> Completion unit;
  ig_login : option string -> option string -> Completion unit;
  ig_photo : Buffer -> string -> Completion (option string * option string);
  ig_video : Buffer -> string -> Completion (option string * option string)
}.

(** [a || b] on optional texts. *)
Definition or_else (a b : option string) : option string :=
  match a with
  | Some s => if String.eqb s "" then b else a
  | None => b
  end.

(** [credentials?.key] *)
Definition cred (credentials : option Credentials) (key : string) : option string :=
  credentials ≫= fun l => snd <$> List.find (fun kv => String.eqb kv.1 key) l.

(** An optional text inside a template literal. *)
Definition interpolate (o : option string) : string := default "undefined" o.

Definition zero_counts (l c s v : bool) : Engagement :=
  mkEngagement (if l then Some 0 else None) (if c then Some 0 else None)
    (if s then Some 0 else None) (if v then Some 0 else None) None.

Section WithWorld.

Variable w : World.

(** [async youtubeService(postData, credentials)] *)
Definition youtubeService (postData : PostData) (credentials : option Credentials)
  : Completion ServiceResult :=
  match pd_media postData with
  | mediaItem :: _ =>
      if negb (String.eqb (m_type mediaItem) "video") then
        Throw (new_Error "YouTube posts require video media")
      else
        try_catch
          (videoResponse ← download w (m_url mediaItem);
           id ← youtube_upload w (pd_content postData) (pd_hashtags postData)
                  (or_else (cred credentials "accessToken") (env w "YOUTUBE_ACCESS_TOKEN"));
           Return (mkServiceResult id
                     (Some ("https://youtube.com/watch?v=" ++ interpolate id))
                     (Some (zero_counts true true false true)) None))
          (fun err => Throw (new_Error ("YouTube API error: " ++ Js.message err)))
  | [] => Throw (new_Error "YouTube posts require video media")
  end.

(** [async tiktokService(postData, credentials)] *)
Definition tiktokService (postData : PostData) (credentials : option Credentials)
  : Completion ServiceResult :=
  match or_else (cred credentials "accessToken") (env w "TIKTOK_ACCESS_TOKEN") with
  | None | Some "" => Throw (new_Error "TikTok credentials not configured")
  | Some accessToken =>
      try_catch
        (match pd_media postData with
         | [] => Throw (new_Error "TikTok posts require video media")
         | mediaItem :: _ =>
             videoResponse ← download w (m_url mediaItem);
             id ← tiktok_upload w videoResponse (pd_content postData) accessToken;
             Return (mkServiceResult (Some (or_string id "tiktok-post-id"))
                       (Some ("https://tiktok.com/@username/video/" ++ interpolate id))
                       (Some (zero_counts true true true true)) None)
         end)
        (fun err => Throw (new_Error ("TikTok API error: " ++ Js.message err)))
  end.

(** [async instagramService(postData, credentials)] *)
Definition instagramService (postData : PostData) (credentials : option Credentials)
  : Completion ServiceResult :=
  if negb (IgApiClient w) then
    Throw (new_Error
      "Instagram API is not available. Please install instagram-private-api package.")
  else
    let username := or_else (cred credentials "username") (env w "INSTAGRAM_USERNAME") in
    let password := or_else (cred credentials "password") (env w "INSTAGRAM_PASSWORD") in
    _ ← ig_generateDevice w username;
    try_catch
      (_ ← ig_login w username password;
       match pd_media postData with
       | mediaItem :: _ =>
           mediaBuffer ← download w (m_url mediaItem);
           publishResult ←
             (if String.eqb (m_type mediaItem) "image" then
                ig_photo w mediaBuffer (pd_content postData)
              else if String.eqb (m_type mediaItem) "video" then
                ig_video w mediaBuffer (pd_content postData)
              else Throw (TypeError "Cannot read properties of undefined (reading 'media')"));
           Return (mkServiceResult publishResult.1
                     (Some ("https://instagram.com/p/" ++ interpolate publishResult.2))
                     (Some (zero_counts true true false false)) None)
       | [] => Throw (new_Error "Instagram posts require media")
       end)
      (fun err => Throw (new_Error ("Instagram API error: " ++ Js.message err))).

End WithWorld.

End Adapters.

(** ** A condition on the collection *)

Module Invariant.

Import SocialMediaPost.

(** Every document is stored under its own [_id]. *)
Definition keyed_by_id (d : Collection) : Prop :=
  ∀ id p, d !! id = Some p → _id p = id.

(** The [for (const post of duePosts)] loop of [processScheduledPosts] from
    an arbitrary accumulator. *)
Definition dispatch_loop (services : SocialMediaService.Services) (now : Z)
  (l : list Post) (acc : SchedulerService.State * list Post)
  : SchedulerService.State * list Post :=
  fold_left
    (fun acc post =>
       (SchedulerService.process_one services acc.1 post now, (acc.2 ++ [post])%list))
    l acc.

End Invariant.

(** ** More concrete scenarios *)

Module Scenario2.

Import SocialMediaPost SchedulerService SchedulerApi SchedulerQueries SchedulerHandlers.

(** A valid request that lacks a title. *)
Definition body_untitled : Body :=
  mkBody None (Some "hello") (Present ["facebook"])
    (Some (mkDateString true (Some 9000))) Absent Absent Absent.



Definition no_filters : Filters := mkFilters None None None.

Definition no_query : JobsQuery := mkJobsQuery None None None None.

Definition page_fb_tw : JobsPage := mkJobsPage [Scenario.post_fb_tw] 1 (Some 20) false.

(** Update validators that accept every update. *)
Definition accept_all : Body -> bool := fun _ => true.

(** Bodies for [POST /post/:platform]: an immediate post and one scheduled
    for instant 4000. *)
Definition post_now : SocialMediaController.PostBody :=
  SocialMediaController.mkPostBody (Some "Launch") (Some "hello") None None None None None.

Definition post_later : SocialMediaController.PostBody :=
  SocialMediaController.mkPostBody (Some "Launch") (Some "hello") None None None None
    (Some (mkDateString true (Some 4000))).

(** A world in which nothing is configured and every remote call fails. *)
Definition offline : Adapters.World :=
  Adapters.mkWorld (fun _ => None) false
    (fun _ => Throw (new_Error "connect ECONNREFUSED"))
    (fun _ _ _ => Throw (new_Error "connect ECONNREFUSED"))
    (fun _ _ _ => Throw (new_Error "connect ECONNREFUSED"))
    (fun _ => Throw (new_Error "connect ECONNREFUSED"))
    (fun _ _ => Throw (new_Error "connect ECONNREFUSED"))
    (fun _ _ => Throw (new_Error "connect ECONNREFUSED"))
    (fun _ _ => Throw (new_Error "connect ECONNREFUSED")).

(** A platform table whose three media services are the modelled ones. *)
Definition media_services (w : Adapters.World) : SocialMediaService.Services :=
  fun name d c =>
    if String.eqb name "instagram" then Adapters.instagramService w d c
    else if String.eqb name "tiktok" then Adapters.tiktokService w d c
    else if String.eqb name "youtube" then Adapters.youtubeService w d c
    else Throw (new_Error "not configured").

End Scenario2.

(** * Properties *)

Import SocialMediaPost SchedulerService SchedulerApi.

(** ** [postToPlatform] *)

Section PostToPlatform.

Variable services : SocialMediaService.Services.

(** The handler of [postToPlatform] catches everything: the call returns. *)
Lemma postToPlatform_returns pf d c :
  ∃ r, SocialMediaService.postToPlatform services pf d c = Return r.
Proof.
  unfold SocialMediaService.postToPlatform, try_catch.
  match goal with |- ∃ r, match ?b with _ => _ end = _ => destruct b end; eauto.
Qed.

Lemma platforms_get_registered pf :
  pf ∈ supportedPlatforms →
  SocialMediaService.platforms_get pf = SocialMediaService.BoundService pf.
Proof.
  intros H. unfold SocialMediaService.platforms_get.
  by rewrite bool_decide_eq_true_2.
Qed.

(** A registered platform whose service resolves gives the success object. *)
Lemma postToPlatform_resolved pf d c res :
  pf ∈ supportedPlatforms →
  services pf d c = Return res →
  SocialMediaService.postToPlatform services pf d c =
    Return (SocialMediaService.mkResponse true pf
              (SocialMediaService.sr_postId res) (SocialMediaService.sr_url res)
              (Some (default no_engagement (SocialMediaService.sr_engagement res)))
              (Some (default [] (SocialMediaService.sr_metadata res)))
              None None).
Proof.
  intros Hin Hres. unfold SocialMediaService.postToPlatform.
  rewrite (platforms_get_registered _ Hin). simpl. by rewrite Hres.
Qed.

(** A registered platform whose service rejects gives the failure object. *)
Lemma postToPlatform_rejected pf d c err :
  pf ∈ supportedPlatforms →
  services pf d c = Throw err →
  SocialMediaService.postToPlatform services pf d c =
    Return (SocialMediaService.mkResponse false pf None None None None
              (Some (Js.message err))
              (Some (or_string (Js.code err) "UNKNOWN_ERROR"))).
Proof.
  intros Hin Hres. unfold SocialMediaService.postToPlatform.
  rewrite (platforms_get_registered _ Hin). simpl. by rewrite Hres.
Qed.

(** A name that is neither registered nor a member of [Object.prototype]
    gives the failure object with the "not supported" message. *)
Lemma postToPlatform_unknown pf d c :
  pf ∉ supportedPlatforms →
  pf ∉ SocialMediaService.objectPrototypeKeys →
  SocialMediaService.postToPlatform services pf d c =
    Return (SocialMediaService.mkResponse false pf None None None None
              (Some ("Platform " ++ pf ++ " is not supported"))
              (Some "UNKNOWN_ERROR")).
Proof.
  intros H1 H2. unfold SocialMediaService.postToPlatform, SocialMediaService.platforms_get.
  rewrite !bool_decide_eq_false_2 by done. reflexivity.
Qed.

(** C10 (failing input).  The name ["constructor"] is not one of the six
    registered platforms, yet [postToPlatform] answers with [success: true]:
    the lookup [this.platforms[platform]] finds [Object] on the prototype
    chain, the "not supported" guard is passed, and [Object(postData)]
    returns normally.  The claim requires the [success: false] object for
    every unregistered name. *)
Theorem postToPlatform_constructor_succeeds d c :
  ("constructor" ∉ supportedPlatforms) ∧
  SocialMediaService.postToPlatform services "constructor" d c =
    Return (SocialMediaService.mkResponse true "constructor" None None
              (Some no_engagement) (Some []) None None).
Proof.
  split; [| reflexivity].
  intros H. apply (bool_decide_pack _) in H. vm_compute in H. exact H.
Qed.

End PostToPlatform.

(** ** The job processor *)

Section JobProcessor.

Variable services : SocialMediaService.Services.

(** The entry pushed for a platform is the "success" entry whatever the
    platform answered: [postToPlatform] returns instead of throwing, and the
    loop does not read [result.success]. *)
Lemma attempt_pushes_success post now pf :
  ∃ r, SocialMediaService.postToPlatform services pf (postData_of post) None = Return r ∧
       attempt services post now pf =
         mkPostResult pf (SocialMediaService.postId r) (SocialMediaService.url r)
           (Some now) (SocialMediaService.engagement r) None "success".
Proof.
  destruct (postToPlatform_returns services pf (postData_of post) None) as [r Hr].
  exists r. split; [done |]. unfold attempt. by rewrite Hr.
Qed.

Lemma attempt_status post now pf : status (attempt services post now pf) = "success".
Proof. by destruct (attempt_pushes_success post now pf) as (r & _ & ->). Qed.

Lemma attempt_platform post now pf : platform (attempt services post now pf) = pf.
Proof. by destruct (attempt_pushes_success post now pf) as (r & _ & ->). Qed.

(** The loop pushes one entry per target platform, in order. *)
Lemma publish_loop_map post now pfs acc :
  publish_loop services post now pfs acc = (acc ++ (attempt services post now <$> pfs))%list.
Proof.
  revert acc. induction pfs as [| pf rest IH]; intros acc; simpl.
  - by rewrite app_nil_r.
  - by rewrite IH, <- app_assoc.
Qed.

Lemma publish_loop_platforms post now :
  platform <$> publish_loop services post now (platforms post) [] = platforms post.
Proof.
  rewrite publish_loop_map, app_nil_l.
  induction (platforms post) as [| pf rest IH]; [done |].
  rewrite !fmap_cons, attempt_platform. by f_equal.
Qed.

Lemma publish_loop_all_success post now :
  Forall (fun r => status r = "success")
    (publish_loop services post now (platforms post) []).
Proof.
  rewrite publish_loop_map. simpl. apply Forall_fmap, Forall_forall.
  intros pf _. apply attempt_status.
Qed.

(** With the collection available the processor returns normally, so no
    error of a platform leaves it as an exception. *)
Lemma processScheduledPost_returns st post now :
  ∃ st', processScheduledPost services st post now = Return st'.
Proof. eexists. reflexivity. Qed.

Lemma findByIdAndUpdate_hit id u (d : Collection) p :
  d !! id = Some p →
  (findByIdAndUpdate id u d).1 !! id = Some (apply_update u p).
Proof.
  intros H. unfold findByIdAndUpdate. rewrite H. simpl. apply lookup_insert_eq.
Qed.

Lemma findByIdAndUpdate_other id id' u (d : Collection) :
  id ≠ id' → (findByIdAndUpdate id u d).1 !! id' = d !! id'.
Proof.
  intros H. unfold findByIdAndUpdate. destruct (d !! id); simpl; [| done].
  by apply lookup_insert_ne.
Qed.

Lemma findByIdAndUpdate_miss id u (d : Collection) :
  d !! id = None → (findByIdAndUpdate id u d).1 = d.
Proof. intros H. unfold findByIdAndUpdate. by rewrite H. Qed.

(** The document stored once a job has been processed. *)
Lemma process_one_stored st post now p :
  db st !! _id post = Some p →
  db (process_one services st post now) !! _id post =
    Some (apply_update
            (published_update now (publish_loop services post now (platforms post) []))
            (apply_update publishing_update p)).
Proof.
  intros H. unfold process_one, processScheduledPost. simpl.
  apply findByIdAndUpdate_hit. by apply findByIdAndUpdate_hit.
Qed.

(** Whatever the platforms answered, the stored status is "published" and
    the job has left the cache. *)
Lemma process_one_published st post now p :
  db st !! _id post = Some p →
  ∃ p', db (process_one services st post now) !! _id post = Some p' ∧
        p_status p' = "published" ∧
        publishedDate p' = Some now ∧
        postResults p' = publish_loop services post now (platforms post) [] ∧
        scheduledJobs (process_one services st post now) !! _id post = None.
Proof.
  intros H. eexists. split; [by apply process_one_stored |].
  repeat split. unfold process_one, processScheduledPost. simpl.
  apply lookup_delete_eq.
Qed.

End JobProcessor.

(** C1 (failing input).  A due post for Twitter alone, with every platform
    unreachable: the only platform outcome is a failure
    ([postToPlatform] answers [success: false]), and the tick stores status
    "published" with a single entry of status "success".  The claim requires
    "failed" when every platform outcome is a failure. *)
Theorem all_platforms_fail_yet_published :
  SocialMediaService.postToPlatform Scenario.all_down "twitter"
    (postData_of Scenario.post_tw) None
    = Return (SocialMediaService.mkResponse false "twitter" None None None None
                (Some "Twitter API error: timeout of 30000ms exceeded")
                (Some "UNKNOWN_ERROR")) ∧
  (tick Scenario.all_down Scenario.st_tw 2000).2 = [Scenario.post_tw] ∧
  p_status <$> db (tick Scenario.all_down Scenario.st_tw 2000).1 !! 2%nat
    = Some "published" ∧
  postResults <$> db (tick Scenario.all_down Scenario.st_tw 2000).1 !! 2%nat
    = Some [mkPostResult "twitter" None None (Some 2000) None None "success"].
Proof. repeat split; vm_compute; reflexivity. Qed.

(** C2 (failing input).  A due post for Facebook and Twitter; Facebook
    accepts, the Twitter service rejects with a timeout.  Both platforms are
    attempted and nothing is thrown, but the entry stored for Twitter has
    status "success" and no error message.  The claim requires an entry of
    status "failed" carrying the message. *)
Theorem failed_platform_stored_as_success :
  SocialMediaService.postToPlatform Scenario.facebook_only "twitter"
    (postData_of Scenario.post_fb_tw) None
    = Return (SocialMediaService.mkResponse false "twitter" None None None None
                (Some "Twitter API error: timeout of 30000ms exceeded")
                (Some "UNKNOWN_ERROR")) ∧
  postResults <$> db (tick Scenario.facebook_only Scenario.st_fb_tw 2000).1 !! 1%nat
    = Some [mkPostResult "facebook" (Some "fb_1") (Some "https://facebook.com/fb_1")
              (Some 2000) (Some (mkEngagement (Some 0) (Some 0) (Some 0) None None))
              None "success";
            mkPostResult "twitter" None None (Some 2000) None None "success"].
Proof. split; vm_compute; reflexivity. Qed.

(** ** Cancelling *)

(** Cancelling an existing post stores "cancelled" and drops the cache
    entry; the status the post had is not consulted. *)
Lemma cancelScheduledPost_existing st id p :
  db st !! id = Some p →
  ∃ st', cancelScheduledPost st id = (st', Some (set_status "cancelled" p)) ∧
         db st' !! id = Some (set_status "cancelled" p) ∧
         scheduledJobs st' !! id = None.
Proof.
  intros H. unfold cancelScheduledPost, findByIdAndUpdate. rewrite H. simpl.
  eexists. split; [reflexivity |]. simpl. split.
  - apply lookup_insert_eq.
  - apply lookup_delete_eq.
Qed.

(** An id that matches nothing: [null] is returned and nothing changes. *)
Lemma cancelScheduledPost_missing st id :
  db st !! id = None → cancelScheduledPost st id = (st, None).
Proof.
  intros H. unfold cancelScheduledPost, findByIdAndUpdate. by rewrite H.
Qed.

(** C3 (failing input).  Cancelling a post whose status is "published", and
    one whose status is "publishing": the handler answers 200 and the stored
    status becomes "cancelled".  The claim requires an error and an unchanged
    record. *)
Theorem cancel_after_publishing_overwrites :
  statusCode (cancelScheduledJob Scenario.st_done 3%nat).2 = 200%nat ∧
  p_status <$> db Scenario.st_done !! 3%nat = Some "published" ∧
  p_status <$> db (cancelScheduledJob Scenario.st_done 3%nat).1 !! 3%nat
    = Some "cancelled" ∧
  statusCode (cancelScheduledJob Scenario.st_busy 2%nat).2 = 200%nat ∧
  p_status <$> db Scenario.st_busy !! 2%nat = Some "publishing" ∧
  p_status <$> db (cancelScheduledJob Scenario.st_busy 2%nat).1 !! 2%nat
    = Some "cancelled".
Proof. repeat split; vm_compute; reflexivity. Qed.

(** ** Pause and resume *)

Lemma pauseScheduler_id st : pauseScheduler st = st.
Proof. reflexivity. Qed.

Lemma resumeScheduler_id st : resumeScheduler st = st.
Proof. reflexivity. Qed.

(** C5 (failing input).  The service is initialized at instant 500, then
    paused (the handler answers "Scheduler paused successfully"); no resume
    follows, and the tick at instant 2000 still hands the due post to the
    processor, which publishes it.  The claim requires that no tick
    dispatches while paused. *)
Theorem tick_dispatches_while_paused :
  payload (pauseSchedulerHandler Scenario.st_started).2
    = Message true "Scheduler paused successfully" None ∧
  (tick Scenario.facebook_only (pauseSchedulerHandler Scenario.st_started).1 2000).2
    = [Scenario.post_fb_tw] ∧
  p_status
    <$> db (tick Scenario.facebook_only (pauseSchedulerHandler Scenario.st_started).1 2000).1
        !! 1%nat
    = Some "published".
Proof. repeat split; vm_compute; reflexivity. Qed.

(** ** Order of effects in the processor *)

Section Interruption.

Variable services : SocialMediaService.Services.

Lemma exec_publish_steps st pfs : fold_left exec (Publish <$> pfs) st = st.
Proof. revert st. induction pfs as [| pf rest IH]; intros st; simpl; [done | apply IH]. Qed.

(** Running all the effects of [steps] is what [processScheduledPost]
    computes. *)
Lemma steps_sound st post now :
  processScheduledPost services st post now
    = Return (fold_left exec (steps services post now) st).
Proof.
  unfold processScheduledPost, steps. f_equal.
  simpl. rewrite fold_left_app, exec_publish_steps.
  reflexivity.
Qed.

(** The first effect is the write of "publishing"; every call to a platform
    comes later in program order. *)
Lemma steps_publishing_first post now :
  steps services post now !! 0%nat = Some (StoreUpdate (_id post) publishing_update) ∧
  ∀ k pf, steps services post now !! k = Some (Publish pf) → (1 ≤ k)%nat.
Proof.
  split; [reflexivity |]. intros [| k] pf H; [discriminate | lia].
Qed.

(** A run that stops after the first write and before the final one leaves
    the stored status at "publishing". *)
Lemma interrupted_status_publishing st post now p k :
  db st !! _id post = Some p →
  (1 ≤ k ≤ S (length (platforms post)))%nat →
  db (interrupted services st post now k) !! _id post
    = Some (set_status "publishing" p).
Proof.
  intros Hp [Hk1 Hk2]. unfold interrupted, steps.
  destruct k as [| k]; [lia |]. simpl.
  rewrite take_app_le by (rewrite length_fmap; lia).
  rewrite <- fmap_take, exec_publish_steps. simpl.
  by rewrite (findByIdAndUpdate_hit _ _ _ _ Hp).
Qed.

End Interruption.

(** C6 (failing input).  For the due post of [Scenario.st_tw], stopping
    right after the first effect leaves status "publishing" in the
    collection, a value the schema's [enum] for [status] does not list.  The
    claim requires the persisted value to be a legal status. *)
Theorem publishing_is_persisted_but_not_in_enum :
  p_status <$> db (interrupted Scenario.all_down Scenario.st_tw Scenario.post_tw 2000 1)
                 !! 2%nat
    = Some "publishing" ∧
  bool_decide ("publishing" ∈ statusEnum) = false.
Proof. split; vm_compute; reflexivity. Qed.

(** ** What a tick dispatches *)

Section Tick.

Variable services : SocialMediaService.Services.

Lemma find_elem_of query (d : Collection) p :
  p ∈ find query d → query p = true ∧ p ∈ documents d.
Proof.
  unfold find. rewrite !list_elem_of_In, filter_In. tauto.
Qed.

Lemma documents_lookup (d : Collection) p :
  p ∈ documents d → ∃ id, d !! id = Some p.
Proof.
  unfold documents. intros H. apply list_elem_of_fmap in H as [[id q] [-> H]].
  exists id. by apply elem_of_map_to_list.
Qed.

Lemma dispatch_loop_log now l (acc : State * list Post) :
  (fold_left
     (fun acc post => (process_one services acc.1 post now, (acc.2 ++ [post])%list))
     l acc).2 = (acc.2 ++ l)%list.
Proof.
  revert acc. induction l as [| post rest IH]; intros acc; simpl.
  - by rewrite app_nil_r.
  - rewrite IH. simpl. by rewrite <- app_assoc.
Qed.

(** The posts handed to the processor in one run are exactly the result of
    the due query, in order. *)
Lemma processScheduledPosts_log st now :
  (processScheduledPosts services st now).2 = find (due_query now) (db st).
Proof.
  unfold processScheduledPosts.
  destruct (find (due_query now) (db st)) as [| post rest] eqn:E; [done |].
  simpl length. simpl Nat.eqb. cbv iota. by rewrite dispatch_loop_log.
Qed.

Lemma due_query_true now p :
  due_query now p = true →
  p_status p = "scheduled" ∧ ∃ d, scheduledDate p = Some d ∧ d ≤ now.
Proof.
  unfold due_query, date_lte. intros H. apply andb_true_iff in H as [Hs Hd].
  apply String.eqb_eq in Hs. split; [done |].
  destruct (scheduledDate p) as [d |]; [| done].
  exists d. split; [done |]. by apply Z.leb_le.
Qed.

Lemma fire_dispatches_only_due tasks st now post :
  post ∈ (fire services tasks st now).2 →
  p_status post = "scheduled" ∧ ∃ d, scheduledDate post = Some d ∧ d ≤ now.
Proof.
  revert st. induction tasks as [| n IH]; intros st; simpl.
  - by intros H%elem_of_nil.
  - rewrite elem_of_app, processScheduledPosts_log. intros [H | H].
    + apply due_query_true. by apply find_elem_of in H as [H _].
    + by apply IH in H.
Qed.

(** C7.  Every post a tick at time [now] hands to the processor has status
    "scheduled" and a [scheduledDate] that is at most [now]; hence none has a
    [scheduledDate] after [now]. *)
Theorem tick_dispatches_only_due st now post :
  post ∈ (tick services st now).2 →
  p_status post = "scheduled" ∧
  (∃ d, scheduledDate post = Some d ∧ d ≤ now) ∧
  ¬ (∃ d, scheduledDate post = Some d ∧ now < d).
Proof.
  intros H. apply fire_dispatches_only_due in H as [Hs [d [Hd Hle]]].
  split; [done |]. split; [by exists d |].
  intros [d' [Hd' Hlt]]. rewrite Hd in Hd'. injection Hd' as <-. lia.
Qed.

End Tick.

(** The tick at instant 2000 over [Scenario.st_fb_tw] dispatches the post
    due at 1000. *)
Lemma tick_dispatches_only_due_witness :
  Scenario.post_fb_tw ∈ (tick Scenario.facebook_only Scenario.st_fb_tw 2000).2 ∧
  p_status Scenario.post_fb_tw = "scheduled" ∧
  (∃ d, scheduledDate Scenario.post_fb_tw = Some d ∧ d ≤ 2000) ∧
  ¬ (∃ d, scheduledDate Scenario.post_fb_tw = Some d ∧ 2000 < d).
Proof.
  assert (H : Scenario.post_fb_tw
                ∈ (tick Scenario.facebook_only Scenario.st_fb_tw 2000).2).
  { vm_compute. apply list_elem_of_here. }
  split; [exact H |].
  exact (tick_dispatches_only_due Scenario.facebook_only Scenario.st_fb_tw 2000
           Scenario.post_fb_tw H).
Defined.

(** ** Derived analytics *)

(** What [save] guarantees: the two totals are sums over the saved
    [postResults]; the two rates are recomputed when the reach is positive
    and keep their previous values otherwise. *)
Lemma save_analytics p (d : Collection) :
  let p' := (save p d).2 in
  postResults p' = postResults p ∧
  totalReach (analytics p') = sum_counter views (postResults p) ∧
  totalEngagement (analytics p') = virtual_totalEngagement (postResults p) ∧
  (0 < sum_counter views (postResults p) →
     engagementRate (analytics p')
       = percent (virtual_totalEngagement (postResults p))
           (sum_counter views (postResults p)) ∧
     clickThroughRate (analytics p')
       = percent (sum_counter clicks (postResults p))
           (sum_counter views (postResults p))) ∧
  (sum_counter views (postResults p) ≤ 0 →
     engagementRate (analytics p') = engagementRate (analytics p) ∧
     clickThroughRate (analytics p') = clickThroughRate (analytics p)).
Proof.
  simpl. repeat split.
  - apply Z.ltb_lt in H. by rewrite H.
  - apply Z.ltb_lt in H. by rewrite H.
  - apply Z.ltb_ge in H. by rewrite H.
  - apply Z.ltb_ge in H. by rewrite H.
Qed.

(** An update sent with [findByIdAndUpdate] leaves [analytics] as stored. *)
Lemma apply_update_analytics u p : analytics (apply_update u p) = analytics p.
Proof.
  unfold apply_update.
  destruct (u_status u), (u_publishedDate u), (u_postResults u); reflexivity.
Qed.

Lemma process_one_keeps_analytics services st post now p :
  db st !! _id post = Some p →
  analytics <$> db (process_one services st post now) !! _id post
    = Some (analytics p).
Proof.
  intros H. rewrite (process_one_stored services st post now p H).
  cbn -[apply_update]. by rewrite !apply_update_analytics.
Qed.

(** C8 (failing input).  (1) The post of [Scenario.st_again] carries
    aggregates that agree with its results (reach 100); the tick replaces
    [postResults] by the new Facebook result, which reports no views, and the
    stored reach is still 100.  (2) Two documents saved through
    [updatePostResult] end with the same [postResults] but different
    engagement rates, 50 and 0.  The claim requires the aggregates to be a
    function of the current [postResults], recomputed at every change. *)
Theorem analytics_not_a_function_of_results :
  analytics (pre_save Scenario.post_again) = analytics Scenario.post_again ∧
  (sum_counter views
     <$> (postResults
            <$> db (tick Scenario.facebook_only Scenario.st_again 2000).1 !! 5%nat)
     = Some 0 ∧
   totalReach
     <$> (analytics
            <$> db (tick Scenario.facebook_only Scenario.st_again 2000).1 !! 5%nat)
     = Some 100) ∧
  (postResults Scenario.second_update.2 = postResults Scenario.single_update.2 ∧
   engagementRate (analytics Scenario.second_update.2) = percent 5 10 ∧
   engagementRate (analytics Scenario.single_update.2) = 0%Qc ∧
   percent 5 10 ≠ 0%Qc).
Proof.
  split; [| split].
  - unfold pre_save, set_analytics. simpl. f_equal; by apply Qc_is_canon.
  - split; vm_compute; reflexivity.
  - split; [vm_compute; reflexivity |].
    split; [by apply Qc_is_canon |].
    split; [by apply Qc_is_canon |].
    intros H. apply (f_equal this) in H. vm_compute in H. discriminate.
Qed.

(** ** Status and statistics queries *)

(** C9 (counterexample).  With the state untouched, [getStatus] read at
    instants 0 and 1 differs (in [timestamp]), and [getSchedulerStats] read
    at instants 0 and 1 differs (in [upcoming]: the post scheduled at
    604800001 enters the seven-day window at instant 1). *)
Lemma queries_differ_as_clock_advances :
  getStatus Scenario.st_next_week 0 ≠ getStatus Scenario.st_next_week 1 ∧
  getSchedulerStats Scenario.st_next_week 7%nat 0
    ≠ getSchedulerStats Scenario.st_next_week 7%nat 1.
Proof.
  split; intros H.
  - apply (f_equal timestamp) in H. discriminate.
  - apply (f_equal (fun m : gmap string Z => m !! "upcoming")) in H.
    vm_compute in H. discriminate.
Qed.

(** C9 (amended).  Two calls of [getStatus] on the same state agree on
    [isInitialized] and [scheduledJobsCount], and the [timestamp] of each is
    the clock reading of that call; two calls of [getSchedulerStats] on the
    same state agree on every key other than [upcoming], and [upcoming] is
    the number of the user's scheduled posts dated at most seven days after
    the clock reading of the call. *)
Theorem queries_agree_up_to_clock st user n1 n2 :
  st_isInitialized (getStatus st n1) = st_isInitialized (getStatus st n2) ∧
  scheduledJobsCount (getStatus st n1) = scheduledJobsCount (getStatus st n2) ∧
  timestamp (getStatus st n1) = n1 ∧
  timestamp (getStatus st n2) = n2 ∧
  delete "upcoming" (getSchedulerStats st user n1)
    = delete "upcoming" (getSchedulerStats st user n2) ∧
  getSchedulerStats st user n1 !! "upcoming"
    = Some (countDocuments
              (fun p => Nat.eqb (createdBy p) user
                        && String.eqb (p_status p) "scheduled"
                        && date_lte (scheduledDate p) (weekFromNow n1))
              (db st)).
Proof.
  repeat split.
  - unfold getSchedulerStats. by rewrite !delete_insert_eq.
  - unfold getSchedulerStats. apply lookup_insert_eq.
Qed.

(** ** Scheduling a post *)

Lemma validation_rejects_past body now d t :
  b_scheduledDate body = Some d → instant d = Some t → t ≤ now →
  InvalidScheduleTime ∈ scheduledJobValidation body now.
Proof.
  intros Hd Ht Hle. unfold scheduledJobValidation, check_scheduledDate.
  rewrite Hd. simpl. rewrite Ht. simpl.
  assert (Z.leb t now = true) as -> by by apply Z.leb_le.
  rewrite !elem_of_app. do 3 right. left. right. apply list_elem_of_here.
Qed.

Lemma validation_rejects_no_targets body now :
  field_list (b_platforms body) = [] →
  NoTargetsSpecified ∈ scheduledJobValidation body now.
Proof.
  intros H. unfold scheduledJobValidation. rewrite !elem_of_app. right. left.
  unfold check_platforms. destruct (b_platforms body) as [| | l]; simpl in *;
    [apply list_elem_of_here .. |].
  subst l. apply list_elem_of_here.
Qed.

(** A request with a validation error is answered 400 with the errors, and
    nothing is stored. *)
Lemma createScheduledJob_rejected st now newId user body e :
  e ∈ scheduledJobValidation body now →
  createScheduledJob st now newId user body
    = (st, mkResponse 400 (Errors (scheduledJobValidation body now))).
Proof.
  intros H. unfold createScheduledJob.
  destruct (scheduledJobValidation body now); [by apply elem_of_nil in H |].
  reflexivity.
Qed.

(** A request that passes the chain names an ISO date whose instant, when
    it has one, lies after [now]. *)
Lemma validation_passed_future body now :
  scheduledJobValidation body now = [] →
  ∃ d, b_scheduledDate body = Some d ∧ isISO8601 d = true ∧
       date_not_after (instant d) now = false.
Proof.
  unfold scheduledJobValidation. intros H.
  apply app_eq_nil in H as [_ H]. apply app_eq_nil in H as [_ H].
  apply app_eq_nil in H as [_ H]. apply app_eq_nil in H as [H _].
  unfold check_scheduledDate in H. apply app_eq_nil in H as [H1 H2].
  destruct (b_scheduledDate body) as [d |]; simpl in *; [| discriminate].
  exists d. split; [done |].
  destruct (isISO8601 d); [| discriminate].
  destruct (date_not_after (instant d) now); [discriminate | done].
Qed.

Lemma schema_valid_date i d :
  schema_valid i = true → i_scheduledDate i = Some d → is_Some (instant d).
Proof.
  unfold schema_valid. intros H Hd. rewrite Hd in H.
  apply andb_true_iff in H as [H _]. apply andb_true_iff in H as [_ H].
  by apply bool_decide_eq_true in H.
Qed.

(** A request that passes the chain and the schema, under an unused id, is
    answered 201; the created post is "scheduled", is stored, and is in the
    job cache. *)
Lemma createScheduledJob_accepted st now newId user body :
  scheduledJobValidation body now = [] →
  schema_valid (with_status "scheduled" (jobData body user)) = true →
  db st !! newId = None →
  ∃ st' job,
    createScheduledJob st now newId user body
      = (st', mkResponse 201 (Data "Job scheduled successfully" job)) ∧
    _id job = newId ∧
    p_status job = "scheduled" ∧
    (∃ t, scheduledDate job = Some t ∧ now < t) ∧
    db st' !! newId = Some job ∧
    scheduledJobs st' !! newId = Some job.
Proof.
  intros Hv Hs Hfree.
  destruct (validation_passed_future body now Hv) as (d & Hd & _ & Hfut).
  destruct (schema_valid_date _ d Hs Hd) as [t Ht].
  unfold createScheduledJob. rewrite Hv.
  unfold schedulePost, create. rewrite Hs. simpl.
  rewrite bool_decide_eq_false_2 by (rewrite Hfree; by intros [? ?]).
  simpl. eexists _, _. split; [reflexivity |]. simpl.
  split; [done |]. split; [done |]. split.
  - exists t. rewrite Hd. simpl. split; [done |].
    rewrite Ht in Hfut. simpl in Hfut. by apply Z.leb_gt in Hfut.
  - split; apply lookup_insert_eq.
Qed.

(** C4.  For a [POST /jobs] request read at time [now] (the validation chain
    followed by [schedulePost]): a [scheduledDate] that is not after [now]
    is refused with the "Scheduled date must be in the future" error; an
    empty target list is refused with the "At least one platform is
    required" error; in both cases nothing is stored.  A request that passes
    the chain and the schema has a [scheduledDate] after [now], the returned
    post has status "scheduled", and the job cache holds it under its id
    when the call returns. *)
Theorem schedulePost_contract st now newId user body :
  (∀ d t, b_scheduledDate body = Some d → instant d = Some t → t ≤ now →
     ∃ errors,
       createScheduledJob st now newId user body
         = (st, mkResponse 400 (Errors errors)) ∧
       InvalidScheduleTime ∈ errors) ∧
  (field_list (b_platforms body) = [] →
     ∃ errors,
       createScheduledJob st now newId user body
         = (st, mkResponse 400 (Errors errors)) ∧
       NoTargetsSpecified ∈ errors) ∧
  (scheduledJobValidation body now = [] →
   schema_valid (with_status "scheduled" (jobData body user)) = true →
   db st !! newId = None →
     ∃ st' job,
       createScheduledJob st now newId user body
         = (st', mkResponse 201 (Data "Job scheduled successfully" job)) ∧
       _id job = newId ∧
       p_status job = "scheduled" ∧
       (∃ t, scheduledDate job = Some t ∧ now < t) ∧
       db st' !! newId = Some job ∧
       scheduledJobs st' !! _id job = Some job).
Proof.
  split; [| split].
  - intros d t Hd Ht Hle. eexists. split.
    + eapply createScheduledJob_rejected, validation_rejects_past; eauto.
    + eapply validation_rejects_past; eauto.
  - intros H. eexists. split.
    + eapply createScheduledJob_rejected, validation_rejects_no_targets; eauto.
    + by apply validation_rejects_no_targets.
  - intros Hv Hs Hfree.
    destruct (createScheduledJob_accepted st now newId user body Hv Hs Hfree)
      as (st' & job & H1 & H2 & H3 & H4 & H5 & H6).
    exists st', job. rewrite H2. done.
Qed.

(** The three cases at instant 5000 on an empty collection: a request dated
    4000, a request without targets, and a request dated 9000. *)
Lemma schedulePost_contract_witness :
  (∃ errors,
     createScheduledJob Scenario.st_empty 5000 1%nat 7%nat Scenario.body_past
       = (Scenario.st_empty, mkResponse 400 (Errors errors)) ∧
     InvalidScheduleTime ∈ errors) ∧
  (∃ errors,
     createScheduledJob Scenario.st_empty 5000 1%nat 7%nat Scenario.body_no_targets
       = (Scenario.st_empty, mkResponse 400 (Errors errors)) ∧
     NoTargetsSpecified ∈ errors) ∧
  (∃ st' job,
     createScheduledJob Scenario.st_empty 5000 1%nat 7%nat Scenario.body_future
       = (st', mkResponse 201 (Data "Job scheduled successfully" job)) ∧
     _id job = 1%nat ∧
     p_status job = "scheduled" ∧
     (∃ t, scheduledDate job = Some t ∧ 5000 < t) ∧
     db st' !! 1%nat = Some job ∧
     scheduledJobs st' !! _id job = Some job).
Proof.
  split; [| split].
  - apply (schedulePost_contract Scenario.st_empty 5000 1%nat 7%nat Scenario.body_past)
      with (d := mkDateString true (Some 4000)) (t := 4000);
      [reflexivity | reflexivity | lia].
  - apply (schedulePost_contract Scenario.st_empty 5000 1%nat 7%nat
             Scenario.body_no_targets).
    reflexivity.
  - apply (schedulePost_contract Scenario.st_empty 5000 1%nat 7%nat
             Scenario.body_future);
      [vm_compute; reflexivity | vm_compute; reflexivity | reflexivity].
Defined.

(** * Further properties of the code *)

Import Invariant SchedulerQueries SchedulerHandlers.

(** ** Documents are stored under their own id *)

Lemma apply_update_id u p : _id (apply_update u p) = _id p.
Proof.
  unfold apply_update.
  destruct (u_status u), (u_publishedDate u), (u_postResults u); reflexivity.
Qed.

Lemma keyed_by_id_insert (d : Collection) id p :
  keyed_by_id d → _id p = id → keyed_by_id (<[id := p]> d).
Proof.
  intros Hd Hp k q. rewrite lookup_insert. case_decide; [| by apply Hd].
  intros [= <-]. by subst.
Qed.

Lemma keyed_by_id_delete (d : Collection) id :
  keyed_by_id d → keyed_by_id (delete id d).
Proof.
  intros Hd k q. rewrite lookup_delete. case_decide; [done | by apply Hd].
Qed.

Lemma keyed_by_id_update id u (d : Collection) :
  keyed_by_id d → keyed_by_id (findByIdAndUpdate id u d).1.
Proof.
  intros Hd. unfold findByIdAndUpdate. destruct (d !! id) as [p |] eqn:E; [| done].
  simpl. apply keyed_by_id_insert; [done |]. rewrite apply_update_id. by apply Hd.
Qed.

Lemma keyed_by_id_empty : keyed_by_id ∅.
Proof. intros id p. by rewrite lookup_empty. Qed.

Section TickEffects.

Variable services : SocialMediaService.Services.

Lemma process_one_db st post now :
  db (process_one services st post now)
    = (findByIdAndUpdate (_id post)
         (published_update now (publish_loop services post now (platforms post) []))
         (findByIdAndUpdate (_id post) publishing_update (db st)).1).1.
Proof. reflexivity. Qed.

Lemma process_one_jobs st post now :
  scheduledJobs (process_one services st post now) = delete (_id post) (scheduledJobs st).
Proof. reflexivity. Qed.

Lemma process_one_other st post now id :
  id ≠ _id post → db (process_one services st post now) !! id = db st !! id.
Proof.
  intros H. rewrite process_one_db.
  rewrite !findByIdAndUpdate_other by done. reflexivity.
Qed.

Lemma process_one_absent st post now :
  db st !! _id post = None → db (process_one services st post now) !! _id post = None.
Proof.
  intros H. rewrite process_one_db.
  rewrite (findByIdAndUpdate_miss _ publishing_update _ H).
  by rewrite (findByIdAndUpdate_miss _ _ _ H).
Qed.

Lemma process_one_keyed st post now :
  keyed_by_id (db st) → keyed_by_id (db (process_one services st post now)).
Proof.
  intros H. rewrite process_one_db. by do 2 apply keyed_by_id_update.
Qed.

Lemma dispatch_loop_keyed now l acc :
  keyed_by_id (db acc.1) → keyed_by_id (db (dispatch_loop services now l acc).1).
Proof.
  unfold dispatch_loop.
  revert acc. induction l as [| a l IH]; intros acc H; simpl; [done |].
  apply IH. simpl. by apply process_one_keyed.
Qed.

Lemma dispatch_loop_frame now l acc id :
  id ∉ _id <$> l → db (dispatch_loop services now l acc).1 !! id = db acc.1 !! id.
Proof.
  unfold dispatch_loop.
  revert acc. induction l as [| a l IH]; intros acc H; simpl; [done |].
  rewrite fmap_cons, not_elem_of_cons in H. destruct H as [H1 H2].
  rewrite IH by done. simpl.
  by apply process_one_other.
Qed.

Lemma dispatch_loop_jobs now l acc id :
  scheduledJobs (dispatch_loop services now l acc).1 !! id
    = if decide (id ∈ _id <$> l) then None else scheduledJobs acc.1 !! id.
Proof.
  unfold dispatch_loop.
  revert acc. induction l as [| a l IH]; intros acc; cbn [fold_left].
  - destruct (decide (id ∈ _id <$> [])) as [H | H]; [| done].
    rewrite fmap_nil in H. by apply elem_of_nil in H.
  - rewrite IH. cbn [fst]. rewrite process_one_jobs, fmap_cons, lookup_delete.
    destruct (decide (id ∈ _id <$> l)) as [H1 | H1].
    + by rewrite decide_True by (by right).
    + destruct (decide (_id a = id)) as [<- | H3].
      * by rewrite decide_True by left.
      * rewrite decide_False; [done |]. rewrite not_elem_of_cons. by split.
Qed.

(** After the loop, a stored document is either one the loop never touched,
    or the published form of a post of the list. *)
Lemma dispatch_loop_stored now l acc id q :
  db (dispatch_loop services now l acc).1 !! id = Some q →
  (db acc.1 !! id = Some q ∧ id ∉ _id <$> l) ∨
  (∃ a p, a ∈ l ∧ _id a = id ∧
          q = apply_update
                (published_update now (publish_loop services a now (platforms a) []))
                (apply_update publishing_update p)).
Proof.
  unfold dispatch_loop.
  revert acc. induction l as [| a l IH]; intros acc H; cbn [fold_left] in *.
  - left. split; [done | rewrite fmap_nil; apply not_elem_of_nil].
  - apply IH in H as [[H Hni] | (b & p & Hb & Hid & Hq)].
    + cbn [fst] in H. destruct (decide (id = _id a)) as [-> | Hne].
      * destruct (db acc.1 !! _id a) as [p |] eqn:E.
        -- rewrite (process_one_stored services acc.1 a now p E) in H.
           injection H as <-. right. exists a, p. split; [left | done].
        -- by rewrite (process_one_absent _ _ _ E) in H.
      * rewrite process_one_other in H by done. left. split; [done |].
        rewrite fmap_cons, not_elem_of_cons. done.
    + right. exists b, p. split; [by right | done].
Qed.

End TickEffects.

Section TickTheorems.

Variable services : SocialMediaService.Services.

Lemma elem_of_documents (d : Collection) p :
  p ∈ documents d ↔ ∃ id, d !! id = Some p.
Proof.
  split; [apply documents_lookup |].
  intros [id H]. unfold documents. apply list_elem_of_fmap.
  exists (id, p). split; [done |]. by apply elem_of_map_to_list.
Qed.

Lemma elem_of_find query (d : Collection) p :
  p ∈ find query d ↔ query p = true ∧ ∃ id, d !! id = Some p.
Proof.
  unfold find. rewrite list_elem_of_In, filter_In, <- list_elem_of_In, elem_of_documents.
  tauto.
Qed.

Lemma processScheduledPosts_loop st now :
  processScheduledPosts services st now
    = dispatch_loop services now (find (due_query now) (db st)) (st, []).
Proof.
  unfold processScheduledPosts, dispatch_loop.
  by destruct (find (due_query now) (db st)).
Qed.

Lemma processScheduledPosts_keyed st now :
  keyed_by_id (db st) → keyed_by_id (db (processScheduledPosts services st now).1).
Proof.
  intros H. rewrite processScheduledPosts_loop. by apply dispatch_loop_keyed.
Qed.

Lemma published_not_due now u p :
  u_status u = Some "published" → due_query now (apply_update u p) = false.
Proof.
  intros H. unfold due_query, apply_update. rewrite H.
  destruct (u_publishedDate u), (u_postResults u); reflexivity.
Qed.

(** Once a run has gone over the due posts, none is left. *)
Lemma processScheduledPosts_consumes st now :
  keyed_by_id (db st) →
  find (due_query now) (db (processScheduledPosts services st now).1) = [].
Proof.
  intros Hk.
  destruct (find _ (db (processScheduledPosts services st now).1)) as [| q l] eqn:E;
    [done |].
  exfalso.
  assert (Hq : q ∈ find (due_query now) (db (processScheduledPosts services st now).1))
    by (rewrite E; left).
  apply elem_of_find in Hq as [Hdue [id Hid]].
  rewrite processScheduledPosts_loop in Hid.
  apply dispatch_loop_stored in Hid as [[Hid Hni] | (a & p & _ & _ & ->)].
  - apply Hni. apply list_elem_of_fmap. exists q. split.
    + symmetry. by apply Hk.
    + apply elem_of_find. split; [done | by exists id].
  - by rewrite published_not_due in Hdue.
Qed.

Lemma processScheduledPosts_idle st now :
  find (due_query now) (db st) = [] → processScheduledPosts services st now = (st, []).
Proof. intros H. unfold processScheduledPosts. by rewrite H. Qed.

Lemma due_ids_in_db st now id p :
  keyed_by_id (db st) → db st !! id = Some p → due_query now p = false →
  id ∉ _id <$> find (due_query now) (db st).
Proof.
  intros Hk Hp Hnd Hin. apply list_elem_of_fmap in Hin as (a & -> & Ha).
  apply elem_of_find in Ha as [Hdue [id' Hid']].
  rewrite (Hk _ _ Hid') in Hp. rewrite Hid' in Hp. injection Hp as <-. congruence.
Qed.

(** X1.  A run of [processScheduledPosts] leaves alone every document that
    is not due: a post that is not "scheduled", or is dated after [now], or
    has no date, is stored unchanged afterwards. *)
Theorem run_leaves_others st now id p :
  keyed_by_id (db st) → db st !! id = Some p → due_query now p = false →
  db (processScheduledPosts services st now).1 !! id = Some p.
Proof.
  intros Hk Hp Hnd. rewrite processScheduledPosts_loop, dispatch_loop_frame; [done |].
  by eapply due_ids_in_db.
Qed.

(** X2.  After a run of [processScheduledPosts] nothing is due any more:
    the due query on the resulting collection is empty, and a second run at
    the same instant dispatches nothing and changes nothing. *)
Theorem run_consumes_due st now :
  keyed_by_id (db st) →
  find (due_query now) (db (processScheduledPosts services st now).1) = [] ∧
  processScheduledPosts services (processScheduledPosts services st now).1 now
    = ((processScheduledPosts services st now).1, []).
Proof.
  intros Hk. pose proof (processScheduledPosts_consumes st now Hk) as H.
  split; [done | by apply processScheduledPosts_idle].
Qed.

Lemma findByIdAndUpdate_is_Some id u (d : Collection) k :
  is_Some ((findByIdAndUpdate id u d).1 !! k) ↔ is_Some (d !! k).
Proof.
  unfold findByIdAndUpdate. destruct (d !! id) as [p |] eqn:E; [| done]. simpl.
  rewrite lookup_insert. case_decide; [| done]. subst. rewrite E.
  split; intros _; eauto.
Qed.

Lemma dispatch_loop_is_Some now l acc k :
  is_Some (db (dispatch_loop services now l acc).1 !! k) ↔ is_Some (db acc.1 !! k).
Proof.
  unfold dispatch_loop.
  revert acc. induction l as [| a l IH]; intros acc; cbn [fold_left]; [done |].
  rewrite IH. cbn [fst]. rewrite process_one_db.
  by rewrite !findByIdAndUpdate_is_Some.
Qed.

Lemma dispatched_is_stored st now a :
  keyed_by_id (db st) →
  a ∈ (processScheduledPosts services st now).2 →
  ∃ q, db (processScheduledPosts services st now).1 !! _id a = Some q ∧
       p_status q = "published" ∧
       publishedDate q = Some now ∧
       platform <$> postResults q = platforms a ∧
       scheduledJobs (processScheduledPosts services st now).1 !! _id a = None.
Proof.
  intros Hk. rewrite processScheduledPosts_log. intros Ha.
  assert (Hid : _id a ∈ _id <$> find (due_query now) (db st))
    by (apply list_elem_of_fmap; eauto).
  apply elem_of_find in Ha as [Hdue [id Hida]].
  pose proof (Hk _ _ Hida) as <-.
  rewrite processScheduledPosts_loop.
  destruct (proj2 (dispatch_loop_is_Some now (find (due_query now) (db st)) (st, [])
                     (_id a)) (ltac:(by eexists))) as [q Hq].
  exists q. split; [done |].
  pose proof Hq as Hq'.
  apply dispatch_loop_stored in Hq' as [[_ Hni] | (b & p & Hb & Hbid & ->)]; [done |].
  apply elem_of_find in Hb as [_ [id' Hb]].
  pose proof (Hk _ _ Hb) as Hb'. rewrite <- Hb', Hbid in Hb.
  cbn [fst] in Hida. rewrite Hida in Hb. injection Hb as <-.
  split; [done |]. split; [done |]. split.
  - apply publish_loop_platforms.
  - rewrite dispatch_loop_jobs. by rewrite decide_True.
Qed.

(** X3.  Every post a run of [processScheduledPosts] dispatches ends up
    stored as "published" with [publishedDate] set to the time of the run
    and exactly one result per target platform, in the order of
    [platforms]; and it is no longer in the job cache. *)
Theorem run_outcome st now a :
  keyed_by_id (db st) →
  a ∈ (processScheduledPosts services st now).2 →
  ∃ q, db (processScheduledPosts services st now).1 !! _id a = Some q ∧
       p_status q = "published" ∧
       publishedDate q = Some now ∧
       platform <$> postResults q = platforms a ∧
       scheduledJobs (processScheduledPosts services st now).1 !! _id a = None.
Proof. apply dispatched_is_stored. Qed.

End TickTheorems.

(** ** The job cache *)

Lemma load_fold (l : list Post) (m : gmap PostId Post) id p :
  (∀ a b, a ∈ l → b ∈ l → _id a = _id b → a = b) →
  fold_left (fun jobs post => <[_id post := post]> jobs) l m !! id = Some p ↔
  (p ∈ l ∧ _id p = id) ∨ (m !! id = Some p ∧ id ∉ _id <$> l).
Proof.
  revert m. induction l as [| a l IH]; intros m Hf; cbn [fold_left].
  - rewrite fmap_nil. split.
    + intros H. right. split; [done | apply not_elem_of_nil].
    + intros [[H _] | [H _]]; [by apply elem_of_nil in H | done].
  - rewrite IH by (intros x y Hx Hy; apply Hf; by right).
    rewrite fmap_cons, lookup_insert. split.
    + intros [[Hp Hid] | [Hm Hni]].
      * left. split; [by right | done].
      * case_decide as E.
        -- injection Hm as <-. left. split; [left | done].
        -- right. split; [done |]. rewrite not_elem_of_cons. by split.
    + intros [[Hp Hid] | [Hm Hni]].
      * apply elem_of_cons in Hp as [-> | Hp]; [| by left; split].
        destruct (decide (id ∈ _id <$> l)) as [Hin | Hni].
        -- left. apply list_elem_of_fmap in Hin as (b & Hb & Hbl).
           assert (b = a) as -> by (apply Hf; [by right | left | congruence]).
           by split.
        -- right. by rewrite decide_True.
      * rewrite not_elem_of_cons in Hni. destruct Hni as [Hne Hni].
        right. by rewrite decide_False.
Qed.

Lemma loadScheduledPosts_lookup st now id p :
  keyed_by_id (db st) →
  scheduledJobs (loadScheduledPosts st now) !! id = Some p ↔
    db st !! id = Some p ∧ upcoming_query now p = true.
Proof.
  intros Hk.
  unfold loadScheduledPosts. cbn [scheduledJobs set_scheduledJobs].
  rewrite load_fold.
  - rewrite lookup_empty. split.
    + intros [[Hp Hid] | [? _]]; [| done].
      apply elem_of_find in Hp as [Hq [id' Hp]].
      pose proof (Hk _ _ Hp) as E. rewrite Hid in E. by subst id'.
    + intros [Hp Hq]. left. split; [| by apply Hk].
      apply elem_of_find. split; [done | by exists id].
  - intros a b Ha Hb Hab.
    apply elem_of_find in Ha as [_ [ia Ha]]. apply elem_of_find in Hb as [_ [ib Hb]].
    pose proof (Hk _ _ Ha) as Ea. pose proof (Hk _ _ Hb) as Eb.
    rewrite <- Ea, Hab, Eb, Hb in Ha. congruence.
Qed.

(** X4.  [loadScheduledPosts] rebuilds the job cache from the collection:
    afterwards the cache holds, under its id, exactly each stored post that
    is "scheduled" and dated at or after the time of the call; entries that
    were cached before are dropped, and the collection is not changed. *)
Theorem loadScheduledPosts_cache st now id p :
  keyed_by_id (db st) →
  (scheduledJobs (loadScheduledPosts st now) !! id = Some p ↔
     db st !! id = Some p ∧ upcoming_query now p = true) ∧
  db (loadScheduledPosts st now) = db st.
Proof.
  intros Hk. split; [by apply loadScheduledPosts_lookup | reflexivity].
Qed.

(** X5.  [initialize] does its work once: the first call loads the cache,
    registers one timer callback and sets [isInitialized]; any later call
    returns the service as it is, so the callback is never registered twice
    by [initialize]. *)
Theorem initialize_once st n1 n2 :
  initialize (initialize st n1) n2 = initialize st n1 ∧
  isInitialized (initialize st n1) = true ∧
  cronTasks (initialize st n1)
    = (if isInitialized st then cronTasks st else S (cronTasks st)) ∧
  scheduledJobs (initialize st n1)
    = (if isInitialized st then scheduledJobs st
       else scheduledJobs (loadScheduledPosts st n1)) ∧
  db (initialize st n1) = db st.
Proof.
  unfold initialize. destruct (isInitialized st) eqn:E.
  - rewrite E. done.
  - done.
Qed.

(** ** Cancelling, again *)


(** X7.  Scheduling a post and cancelling it right away brings the job
    cache back to what it was; the post stays in the collection, with status
    "cancelled". *)
Theorem schedule_then_cancel st now newId user body :
  scheduledJobValidation body now = [] →
  schema_valid (with_status "scheduled" (jobData body user)) = true →
  db st !! newId = None →
  scheduledJobs st !! newId = None →
  ∃ st1 job,
    createScheduledJob st now newId user body
      = (st1, mkResponse 201 (Data "Job scheduled successfully" job)) ∧
    (cancelScheduledJob st1 newId).2
      = mkResponse 200 (Data "Scheduled job cancelled successfully"
                          (set_status "cancelled" job)) ∧
    scheduledJobs (cancelScheduledJob st1 newId).1 = scheduledJobs st ∧
    db (cancelScheduledJob st1 newId).1 !! newId = Some (set_status "cancelled" job).
Proof.
  intros Hv Hs Hfree Hcache.
  unfold createScheduledJob. rewrite Hv.
  unfold schedulePost, create. rewrite Hs. simpl.
  rewrite bool_decide_eq_false_2 by (rewrite Hfree; by intros [? ?]).
  simpl. eexists _, _. split; [reflexivity |].
  unfold cancelScheduledJob, cancelScheduledPost, findByIdAndUpdate. simpl.
  rewrite lookup_insert_eq. simpl. split; [reflexivity |]. split.
  - by apply delete_insert_id.
  - apply lookup_insert_eq.
Qed.

(** ** Requests the chain lets through *)

(** X8.  The validation chain does not look at [title], but the schema
    requires one of at most 200 characters: a request that passes the chain
    without such a title is answered 500 (not 400), and nothing is stored or
    cached. *)
Theorem createScheduledJob_without_title st now newId user body :
  scheduledJobValidation body now = [] →
  required_max 200 (b_title body) = false →
  ∃ text,
    createScheduledJob st now newId user body
      = (st, mkResponse 500
               (Message false "Server error creating scheduled job" (Some text))).
Proof.
  intros Hv Ht. unfold createScheduledJob. rewrite Hv.
  unfold schedulePost, create, schema_valid. simpl. rewrite Ht. by eexists.
Qed.




(** ** Statistics *)

Lemma filter_filter_andb {A} (f g : A → bool) l :
  List.filter g (List.filter f l) = List.filter (fun x => f x && g x) l.
Proof.
  induction l as [| x l IH]; [done |]. simpl.
  destruct (f x); simpl; [destruct (g x) |]; by rewrite ?IH.
Qed.

Lemma count_by_status_fold (l : list Post) (acc : gmap string Z) s :
  fold_left (fun m p => <[p_status p := default 0 (m !! p_status p) + 1]> m) l acc !! s
    = (let n := Z.of_nat (length (List.filter (fun p => String.eqb (p_status p) s) l)) in
       if Z.eqb n 0 then acc !! s else Some (default 0 (acc !! s) + n)).
Proof.
  revert acc. induction l as [| a l IH]; intros acc; [done |].
  cbn [fold_left]. rewrite IH. cbn [List.filter]. rewrite lookup_insert.
  destruct (String.eqb_spec (p_status a) s) as [E | E].
  - rewrite decide_True by done. cbn [length default]. subst s.
    set (k := length _). clearbody k. rewrite Nat2Z.inj_succ.
    destruct (Z.eqb_spec (Z.of_nat k) 0) as [E0 | E0];
      destruct (Z.eqb_spec (Z.succ (Z.of_nat k)) 0) as [E1 | E1]; try lia.
    + rewrite E0. reflexivity.
    + simpl. f_equal. lia.
  - by rewrite decide_False by done.
Qed.

Lemma count_by_status_lookup posts s :
  count_by_status posts !! s
    = (let n := Z.of_nat (length (List.filter (fun p => String.eqb (p_status p) s) posts)) in
       if Z.eqb n 0 then None else Some n).
Proof.
  unfold count_by_status. rewrite count_by_status_fold, lookup_empty. simpl.
  by destruct (Z.eqb _ 0).
Qed.

Lemma msum_insert (m : gmap string Z) k v :
  map_fold (fun _ x a => x + a) 0 (<[k := v]> m)
    = v - default 0 (m !! k) + map_fold (fun _ x a => x + a) 0 m.
Proof.
  destruct (m !! k) as [x |] eqn:E; simpl.
  - assert (Hm : map_fold (fun (_ : string) x a => x + a) 0 m
                 = x + map_fold (fun (_ : string) x a => x + a) 0 (delete k m)).
    { rewrite <- (insert_delete_id m k x E) at 1.
      rewrite map_fold_insert_L; [done | intros; lia | apply lookup_delete_eq]. }
    rewrite Hm, <- insert_delete_eq.
    rewrite map_fold_insert_L; [lia | intros; lia | apply lookup_delete_eq].
  - rewrite map_fold_insert_L; [lia | intros; lia | done].
Qed.

Lemma count_by_status_sum (l : list Post) (acc : gmap string Z) :
  map_fold (fun _ x a => x + a) 0
    (fold_left (fun m p => <[p_status p := default 0 (m !! p_status p) + 1]> m) l acc)
    = map_fold (fun _ x a => x + a) 0 acc + Z.of_nat (length l).
Proof.
  revert acc. induction l as [| a l IH]; intros acc; cbn [fold_left length]; [lia |].
  rewrite IH, msum_insert. lia.
Qed.

(** The [forEach] of [getSchedulerStats] over groups with distinct names,
    none of them ["total"]. *)
Lemma stats_fold (kvs : list (string * Z)) (r : gmap string Z) t :
  NoDup kvs.*1 → "total" ∉ kvs.*1 → r !! "total" = Some t →
  let r' :=
    fold_left
      (fun result stat =>
         let result1 := <[stat.1 := stat.2]> result in
         <["total" := default 0 (result1 !! "total") + stat.2]> result1)
      kvs r in
  r' !! "total" = Some (t + foldr (fun kv a => kv.2 + a) 0 kvs) ∧
  ∀ s, s ≠ "total" →
       (∀ v, (s, v) ∈ kvs → r' !! s = Some v) ∧ (s ∉ kvs.*1 → r' !! s = r !! s).
Proof.
  revert r t. induction kvs as [| [k v] kvs IH]; intros r t Hnd Hnt Ht;
    cbn [fold_left foldr].
  - split; [rewrite Ht; f_equal; lia |].
    intros s _. split; [by intros v H%elem_of_nil | done].
  - rewrite fmap_cons in Hnd, Hnt. cbn [fst snd] in *.
    apply NoDup_cons in Hnd as [Hk Hnd]. apply not_elem_of_cons in Hnt as [Hkt Hnt].
    rewrite (lookup_insert_ne r k "total" v) by done. rewrite Ht. simpl (default _ _).
    destruct (IH (<["total" := t + v]> (<[k := v]> r)) (t + v) Hnd Hnt
                (lookup_insert_eq _ _ _)) as [IHt IHs].
    split; [rewrite IHt; f_equal; lia |].
    intros s Hs. destruct (IHs s Hs) as [IH1 IH2]. split.
    + intros v' [[= -> ->] | Hin]%elem_of_cons; [| by apply IH1].
      rewrite IH2 by done. rewrite lookup_insert_ne by done. apply lookup_insert_eq.
    + rewrite fmap_cons, not_elem_of_cons. cbn [fst]. intros [Hne Hni].
      rewrite IH2 by done. by rewrite !lookup_insert_ne.
Qed.

Lemma foldr_uncurry_sum (l : list (string * Z)) :
  foldr (uncurry (fun (_ : string) x a => x + a)) 0 l
    = foldr (fun kv a => kv.2 + a) 0 l.
Proof. induction l as [| [k v] l IH]; simpl; congruence. Qed.

Lemma stats_lookup st user now :
  (∀ id p, db st !! id = Some p → createdBy p = user → p_status p ≠ "total") →
  getSchedulerStats st user now !! "total"
    = Some (countDocuments (fun p => Nat.eqb (createdBy p) user) (db st)) ∧
  ∀ s, s ≠ "total" → s ≠ "upcoming" →
       getSchedulerStats st user now !! s
         = (let n := countDocuments
                       (fun p => Nat.eqb (createdBy p) user
                                 && String.eqb (p_status p) s) (db st) in
            if bool_decide (n = 0 ∧ s ∉ ["scheduled"; "published"; "failed"; "cancelled"])
            then None else Some n).
Proof.
  intros Hno. unfold getSchedulerStats, aggregate_status. cbv zeta.
  set (posts := find (fun p => Nat.eqb (createdBy p) user) (db st)).
  set (m := count_by_status posts).
  set (r0 := <["scheduled" := 0]> _).
  assert (Hlook : ∀ s, m !! s
            = (let n := countDocuments
                          (fun p => Nat.eqb (createdBy p) user
                                    && String.eqb (p_status p) s) (db st) in
               if Z.eqb n 0 then None else Some n)).
  { intros s. unfold m. rewrite count_by_status_lookup. unfold posts, find.
    by rewrite filter_filter_andb. }
  assert (Hnt : "total" ∉ (map_to_list m).*1).
  { intros Hin. apply list_elem_of_fmap in Hin as ([k v] & Hk & Hin). simpl in Hk.
    subst k. apply elem_of_map_to_list in Hin. rewrite Hlook in Hin.
    cbv zeta in Hin. unfold countDocuments in Hin.
    destruct (find (fun p => Nat.eqb (createdBy p) user
                             && String.eqb (p_status p) "total") (db st))
      as [| p l] eqn:E; [simpl in Hin; discriminate |].
    assert (Hp : p ∈ find (fun p => Nat.eqb (createdBy p) user
                                     && String.eqb (p_status p) "total") (db st))
      by (rewrite E; left).
    apply elem_of_find in Hp as [Hq [id Hp]]. apply andb_true_iff in Hq as [Hu Hs].
    apply Nat.eqb_eq in Hu. apply String.eqb_eq in Hs. by eapply Hno. }
  destruct (stats_fold (map_to_list m) r0 0 (NoDup_fst_map_to_list m) Hnt eq_refl)
    as [Htot Hs].
  cbv zeta in Htot, Hs. split.
  - rewrite lookup_insert_ne by done. rewrite Htot. f_equal.
    rewrite <- foldr_uncurry_sum, <- map_fold_foldr. unfold m, count_by_status.
    rewrite count_by_status_sum, map_fold_empty. unfold countDocuments. fold posts. lia.
  - intros s Hst Hsu. rewrite lookup_insert_ne by done.
    destruct (Hs s Hst) as [Hin Hout]. specialize (Hlook s). cbv zeta in *.
    set (n := countDocuments _ (db st)) in *.
    destruct (Z.eqb_spec n 0) as [E0 | E0].
    + rewrite Hout.
      * unfold r0. case_bool_decide as Hd.
        -- destruct Hd as [_ Hd]. rewrite !not_elem_of_cons in Hd.
           destruct Hd as (? & ? & ? & ? & _).
           by rewrite !lookup_insert_ne, lookup_empty by done.
        -- rewrite E0.
           destruct (decide (s ∈ ["scheduled"; "published"; "failed"; "cancelled"]))
             as [Hd' | Hd']; [| exfalso; by apply Hd].
           rewrite !elem_of_cons in Hd'.
           destruct Hd' as [-> | [-> | [-> | [-> | Hd']]]];
             [reflexivity .. | by apply elem_of_nil in Hd'].
      * intros Hk. apply list_elem_of_fmap in Hk as ([k v] & Hk & Hkv). simpl in Hk.
        subst k. apply elem_of_map_to_list in Hkv. congruence.
    + rewrite bool_decide_eq_false_2 by (intros [? _]; done).
      apply Hin. by apply elem_of_map_to_list.
Qed.

(** X10.  [getSchedulerStats] counts correctly, for a [userId] of the type
    stored in [createdBy] (the pipeline compares without casting).  Provided
    every post of the user carries a status the code writes (one of the
    schema's five, or "publishing"): the [total] key is the number of the user's posts; every
    other key except [upcoming] is the number of the user's posts with that
    status, where the four keys [scheduled], [published], [failed] and
    [cancelled] are present even when the number is zero and any other
    status appears only when some post has it. *)
Theorem stats_counts st user now :
  (∀ id p, db st !! id = Some p → createdBy p = user →
           p_status p ∈ "publishing" :: statusEnum) →
  getSchedulerStats st user now !! "total"
    = Some (countDocuments (fun p => Nat.eqb (createdBy p) user) (db st)) ∧
  ∀ s, s ≠ "total" → s ≠ "upcoming" →
       getSchedulerStats st user now !! s
         = (let n := countDocuments
                       (fun p => Nat.eqb (createdBy p) user
                                 && String.eqb (p_status p) s) (db st) in
            if bool_decide (n = 0 ∧ s ∉ ["scheduled"; "published"; "failed"; "cancelled"])
            then None else Some n).
Proof.
  intros H. apply stats_lookup. intros id p Hp Hu Hs.
  specialize (H id p Hp Hu). rewrite Hs in H.
  apply (bool_decide_pack _) in H. by vm_compute in H.
Qed.

(** ** Read queries *)

Lemma date_key_le_total a b : date_key_le a b = true ∨ date_key_le b a = true.
Proof.
  destruct a as [x |], b as [y |]; simpl; auto.
  destruct (Z.leb_spec x y); [by left | right; apply Z.leb_le; lia].
Qed.

Lemma date_key_le_trans a b c :
  date_key_le a b = true → date_key_le b c = true → date_key_le a c = true.
Proof.
  destruct a as [x |], b as [y |], c as [z |]; simpl; try done.
  rewrite !Z.leb_le. lia.
Qed.

Lemma by_scheduledDate_total : Total by_scheduledDate.
Proof.
  intros p q. unfold by_scheduledDate.
  destruct (date_key_le_total (scheduledDate p) (scheduledDate q)) as [H | H];
    rewrite H; [left | right]; exact I.
Qed.

Lemma by_scheduledDate_trans : Transitive by_scheduledDate.
Proof.
  intros p q r. unfold by_scheduledDate. intros H1%Is_true_true H2%Is_true_true.
  apply Is_true_true. by eapply date_key_le_trans.
Qed.

Lemma sorted_by_scheduledDate l :
  StronglySorted by_scheduledDate (merge_sort by_scheduledDate l).
Proof.
  apply (@StronglySorted_merge_sort _ by_scheduledDate _ by_scheduledDate_trans
           by_scheduledDate_total).
Qed.

(** X11.  When [getScheduledPosts] returns, the list holds exactly the
    user's stored posts with status "scheduled" that pass the filters (each
    once), in ascending order of [scheduledDate]; with a date filter every
    listed post has a date inside the bounds, and with a platform filter
    every listed post targets that platform. *)
Theorem getScheduledPosts_result st user f jobs :
  getScheduledPosts st user f = Return jobs →
  jobs ≡ₚ find (scheduled_query user f) (db st) ∧
  StronglySorted by_scheduledDate jobs ∧
  ∀ p, p ∈ jobs →
       createdBy p = user ∧ p_status p = "scheduled" ∧
       (∀ pf, f_platform f = Some pf → pf ∈ platforms p) ∧
       (∀ a, f_startDate f = Some (Some a) →
             ∃ t, scheduledDate p = Some t ∧ a ≤ t) ∧
       (∀ b, f_endDate f = Some (Some b) →
             ∃ t, scheduledDate p = Some t ∧ t ≤ b).
Proof.
  unfold getScheduledPosts, try_catch.
  destruct (castable f); [| discriminate]. intros [= <-].
  split; [apply merge_sort_Permutation |]. split; [apply sorted_by_scheduledDate |].
  intros p Hp. rewrite merge_sort_Permutation in Hp.
  apply elem_of_find in Hp as [Hq _]. unfold scheduled_query in Hq.
  apply andb_true_iff in Hq as [Hq Hpf]. apply andb_true_iff in Hq as [Hq Hr].
  apply andb_true_iff in Hq as [Hu Hs].
  apply Nat.eqb_eq in Hu. apply String.eqb_eq in Hs.
  split; [done |]. split; [done |]. split; [| split].
  - intros pf E. unfold platform_ok in Hpf. rewrite E in Hpf.
    by apply bool_decide_eq_true in Hpf.
  - intros a E. unfold range_ok in Hr. rewrite E in Hr.
    destruct (scheduledDate p) as [t |]; [| by destruct (f_endDate f)].
    exists t. split; [done |].
    assert (H : bound_ok Z.leb (Some (Some a)) t = true)
      by (destruct (f_endDate f); by apply andb_true_iff in Hr as [? _]).
    by apply Z.leb_le in H.
  - intros b E. unfold range_ok in Hr. rewrite E in Hr.
    destruct (scheduledDate p) as [t |]; [| by destruct (f_startDate f)].
    exists t. split; [done |].
    assert (H : bound_ok Z.geb (Some (Some b)) t = true)
      by (destruct (f_startDate f); by apply andb_true_iff in Hr as [_ ?]).
    simpl in H. apply Z.geb_le in H. lia.
Qed.

(** X12.  When [getNextScheduledTime] returns an instant, some "scheduled"
    post of the user is dated at that instant and every "scheduled" post of
    the user has a date, none earlier than it.  (A "scheduled" post without a
    date sorts first and makes the answer empty.) *)
Theorem getNextScheduledTime_is_earliest st user t :
  getNextScheduledTime st user = Some t →
  (∃ id p, db st !! id = Some p ∧ createdBy p = user ∧
           p_status p = "scheduled" ∧ scheduledDate p = Some t) ∧
  ∀ id q, db st !! id = Some q → createdBy q = user → p_status q = "scheduled" →
          ∃ t', scheduledDate q = Some t' ∧ t ≤ t'.
Proof.
  unfold getNextScheduledTime.
  set (query := fun p => Nat.eqb (createdBy p) user && String.eqb (p_status p) "scheduled").
  pose proof (sorted_by_scheduledDate (find query (db st))) as Hs.
  pose proof (merge_sort_Permutation by_scheduledDate (find query (db st))) as Hp.
  destruct (merge_sort by_scheduledDate (find query (db st))) as [| x rest];
    [discriminate |].
  simpl. intros Hx. split.
  - assert (Hin : x ∈ find query (db st)) by (rewrite <- Hp; left).
    apply elem_of_find in Hin as [Hq [id Hid]]. apply andb_true_iff in Hq as [Hu Hst].
    exists id, x. split; [done |]. split; [by apply Nat.eqb_eq |].
    split; [by apply String.eqb_eq | done].
  - intros id q Hq Hu Hst.
    assert (Hin : q ∈ x :: rest).
    { rewrite Hp. apply elem_of_find. split; [| by exists id].
      unfold query. apply andb_true_iff. split.
      - by apply Nat.eqb_eq.
      - by apply String.eqb_eq. }
    assert (HR : by_scheduledDate x q).
    { apply elem_of_cons in Hin as [-> | Hin].
      - unfold by_scheduledDate. rewrite Hx. simpl.
        apply Is_true_true. apply Z.leb_refl.
      - apply StronglySorted_inv in Hs as [_ Hall].
        by eapply Forall_forall in Hall. }
    unfold by_scheduledDate in HR. rewrite Hx in HR.
    destruct (scheduledDate q) as [t' |]; [| done].
    exists t'. split; [done |]. simpl in HR. apply Is_true_true in HR.
    by apply Z.leb_le.
Qed.

Lemma slice0_prefix {A} n (l : list A) : slice0 n l `prefix_of` l.
Proof.
  unfold slice0. destruct n as [k |]; [| apply prefix_nil].
  destruct (Z.ltb k 0); apply prefix_take.
Qed.

(** X13.  In the answer of [GET /jobs], [data] is always an initial segment
    of the user's sorted job list and [total] is the length of that list;
    with a non-negative limit (20 when none is given) [data] has
    [min limit total] elements, and [hasMore] is true exactly when some job
    was left out. *)
Theorem getScheduledJobs_page st user q page :
  getScheduledJobs st user q = JobsOk page →
  ∃ jobs,
    getScheduledPosts st user (mkFilters (q_startDate q) (q_endDate q) (q_platform q))
      = Return jobs ∧
    data page `prefix_of` jobs ∧
    total page = length jobs ∧
    (q_limit q = None → (length (data page) ≤ 20)%nat) ∧
    ∀ k, parsed_limit q = Some k → 0 ≤ k →
         length (data page) = Nat.min (Z.to_nat k) (total page) ∧
         (hasMore page = true ↔ (length (data page) < total page)%nat).
Proof.
  unfold getScheduledJobs.
  destruct (getScheduledPosts st user _) as [jobs | err]; [| discriminate].
  intros [= <-]. exists jobs. split; [done |]. simpl.
  split; [apply slice0_prefix |]. split; [done |]. split.
  - intros E. unfold parsed_limit. rewrite E. simpl. rewrite length_take. lia.
  - intros k E Hk. rewrite E. simpl.
    destruct (Z.ltb_spec k 0) as [? | _]; [lia |].
    rewrite length_take. split; [done |].
    rewrite Z.ltb_lt. lia.
Qed.

(** ** Bulk cancel *)

Lemma bulk_step_found acc id p :
  db (acc_state acc) !! id = Some p →
  bulk_step acc (Some id)
    = mkBulkAcc
        (mkState (<[id := set_status "cancelled" p]> (db (acc_state acc)))
           (delete id (scheduledJobs (acc_state acc)))
           (isInitialized (acc_state acc)) (cronTasks (acc_state acc)))
        (cancelledJobs acc ++ [set_status "cancelled" p]) (failedJobs acc).
Proof.
  intros H. unfold bulk_step, cancel_param, cancelScheduledPost, findByIdAndUpdate.
  by rewrite H.
Qed.

Lemma bulk_step_missing acc jid :
  (∀ id, jid = Some id → db (acc_state acc) !! id = None) →
  bulk_step acc jid
    = mkBulkAcc (acc_state acc) (cancelledJobs acc) (failedJobs acc ++ [jid]).
Proof.
  intros H. unfold bulk_step, cancel_param. destruct jid as [id |]; [| done].
  by rewrite (cancelScheduledPost_missing _ _ (H id eq_refl)).
Qed.

Lemma bulk_step_cases acc jid :
  (∃ id p, jid = Some id ∧ db (acc_state acc) !! id = Some p) ∨
  (∀ id, jid = Some id → db (acc_state acc) !! id = None).
Proof.
  destruct jid as [id |]; [| by right].
  destruct (db (acc_state acc) !! id) as [p |] eqn:E.
  - left. by exists id, p.
  - right. by intros ? [= <-].
Qed.

Lemma bulk_step_db acc jid id :
  db (acc_state (bulk_step acc jid)) !! id
    = if decide (jid = Some id) then set_status "cancelled" <$> db (acc_state acc) !! id
      else db (acc_state acc) !! id.
Proof.
  destruct (bulk_step_cases acc jid) as [(id0 & p & -> & Hp) | Hm].
  - rewrite (bulk_step_found _ _ _ Hp). simpl. rewrite lookup_insert.
    destruct (decide (id0 = id)) as [-> | Hne].
    + by rewrite decide_True, Hp.
    + rewrite decide_False; [done | congruence].
  - rewrite (bulk_step_missing _ _ Hm). simpl.
    case_decide as E; [| done]. by rewrite (Hm _ E).
Qed.

Lemma bulk_step_jobs_none acc jid id :
  scheduledJobs (acc_state acc) !! id = None →
  scheduledJobs (acc_state (bulk_step acc jid)) !! id = None.
Proof.
  intros H. destruct (bulk_step_cases acc jid) as [(id0 & p & -> & Hp) | Hm].
  - rewrite (bulk_step_found _ _ _ Hp). simpl. rewrite lookup_delete. by case_decide.
  - by rewrite (bulk_step_missing _ _ Hm).
Qed.

Lemma bulk_fold_jobs_none ids acc id :
  scheduledJobs (acc_state acc) !! id = None →
  scheduledJobs (acc_state (fold_left bulk_step ids acc)) !! id = None.
Proof.
  revert acc. induction ids as [| jid ids IH]; intros acc H; [done |].
  cbn [fold_left]. apply IH. by apply bulk_step_jobs_none.
Qed.

Lemma set_status_twice s p : set_status s (set_status s p) = set_status s p.
Proof. reflexivity. Qed.

Lemma bulk_fold ids acc :
  (∀ id, db (acc_state (fold_left bulk_step ids acc)) !! id
         = if decide (Some id ∈ ids)
           then set_status "cancelled" <$> db (acc_state acc) !! id
           else db (acc_state acc) !! id) ∧
  (∀ id, Some id ∈ ids → is_Some (db (acc_state acc) !! id) →
         scheduledJobs (acc_state (fold_left bulk_step ids acc)) !! id = None) ∧
  (length (cancelledJobs (fold_left bulk_step ids acc))
   + length (failedJobs (fold_left bulk_step ids acc))
   = length (cancelledJobs acc) + length (failedJobs acc) + length ids)%nat ∧
  (Forall (fun p => p_status p = "cancelled") (cancelledJobs acc) →
   Forall (fun p => p_status p = "cancelled")
     (cancelledJobs (fold_left bulk_step ids acc))) ∧
  (∀ jid, jid ∈ failedJobs (fold_left bulk_step ids acc) →
          jid ∈ failedJobs acc ∨ jid = None ∨
          ∃ id, jid = Some id ∧ db (acc_state acc) !! id = None).
Proof.
  revert acc. induction ids as [| jid ids IH]; intros acc; cbn [fold_left].
  - split; [| split; [| split; [| split]]].
    + intros id. destruct (decide (Some id ∈ [])) as [H | _]; [| done].
      by apply elem_of_nil in H.
    + by intros id H%elem_of_nil.
    + simpl. lia.
    + done.
    + intros j H. by left.
  - destruct (IH (bulk_step acc jid)) as (IHd & IHj & IHl & IHc & IHf).
    split; [| split; [| split; [| split]]].
    + intros id. rewrite IHd, bulk_step_db.
      destruct (decide (jid = Some id)) as [-> | Hne].
      * destruct (decide (Some id ∈ Some id :: ids)) as [_ | Hn];
          [| exfalso; apply Hn; left].
        destruct (decide (Some id ∈ ids)); [| done].
        by destruct (db (acc_state acc) !! id).
      * destruct (decide (Some id ∈ ids)) as [Hin | Hni];
          destruct (decide (Some id ∈ jid :: ids)) as [Hin' | Hni']; try done.
        -- exfalso. apply Hni'. by right.
        -- exfalso. apply elem_of_cons in Hin' as [? | ?]; [congruence | done].
    + intros id Hin Hs.
      assert (Hs' : is_Some (db (acc_state (bulk_step acc jid)) !! id)).
      { rewrite bulk_step_db. case_decide; [| done]. by apply fmap_is_Some. }
      destruct (decide (Some id ∈ ids)) as [Hin' | Hni]; [by apply IHj |].
      apply elem_of_cons in Hin as [<- | Hin]; [| done].
      apply bulk_fold_jobs_none. destruct Hs as [p Hp].
      rewrite (bulk_step_found _ _ _ Hp). simpl. apply lookup_delete_eq.
    + rewrite IHl. cbn [length].
      destruct (bulk_step_cases acc jid) as [(id0 & p & -> & Hp) | Hm].
      * rewrite (bulk_step_found _ _ _ Hp). simpl. rewrite length_app. simpl. lia.
      * rewrite (bulk_step_missing _ _ Hm). simpl. rewrite length_app. simpl. lia.
    + intros H. apply IHc.
      destruct (bulk_step_cases acc jid) as [(id0 & p & -> & Hp) | Hm].
      * rewrite (bulk_step_found _ _ _ Hp). simpl. apply Forall_app. split; [done |].
        by constructor.
      * by rewrite (bulk_step_missing _ _ Hm).
    + intros j Hj. apply IHf in Hj as [Hj | [-> | (id & -> & Hid)]].
      * destruct (bulk_step_cases acc jid) as [(id0 & p & -> & Hp) | Hm].
        -- rewrite (bulk_step_found _ _ _ Hp) in Hj. by left.
        -- rewrite (bulk_step_missing _ _ Hm) in Hj. simpl in Hj.
           apply elem_of_app in Hj as [Hj | Hj]; [by left |].
           apply list_elem_of_singleton in Hj as ->. right.
           destruct jid as [id |]; [right | by left].
           exists id. split; [done | by apply Hm].
      * right. by left.
      * right. right. exists id. split; [done |].
        rewrite bulk_step_db in Hid. case_decide; [| done].
        by destruct (db (acc_state acc) !! id).
Qed.

(** X14.  [bulkCancelJobs] on a non-empty array of ids answers with two
    lists whose lengths add up to the number of ids given.  Afterwards each
    id of the request that names a stored post has status "cancelled" and is
    out of the job cache, every other stored post is unchanged, every job in
    the cancelled list has status "cancelled", and every id in the failed
    list is malformed or names no stored post. *)
Theorem bulkCancelJobs_result st jid ids :
  ∃ message cancelled failed,
    (bulkCancelJobs st (Present (jid :: ids))).2 = BulkDone message cancelled failed ∧
    (length cancelled + length failed = length (jid :: ids))%nat ∧
    Forall (fun p => p_status p = "cancelled") cancelled ∧
    (∀ j, j ∈ failed → j = None ∨ ∃ id, j = Some id ∧ db st !! id = None) ∧
    (∀ id, db (bulkCancelJobs st (Present (jid :: ids))).1 !! id
           = if decide (Some id ∈ jid :: ids)
             then set_status "cancelled" <$> db st !! id
             else db st !! id) ∧
    (∀ id, Some id ∈ jid :: ids → is_Some (db st !! id) →
           scheduledJobs (bulkCancelJobs st (Present (jid :: ids))).1 !! id = None).
Proof.
  unfold bulkCancelJobs. cbn [fst snd]. eexists _, _, _. split; [reflexivity |].
  destruct (bulk_fold (jid :: ids) (mkBulkAcc st [] [])) as (Hd & Hj & Hl & Hc & Hf).
  split; [exact Hl |]. split; [by apply Hc |]. split.
  - intros j H. apply Hf in H as [H | H]; [by apply elem_of_nil in H | done].
  - split; [exact Hd | exact Hj].
Qed.

(** ** Updating a scheduled job *)

Section UpdateJob.

Variable updateValidators : Body → bool.

(** X15.  [PUT /jobs/:id] changes nothing unless the id names a stored post
    that belongs to the requesting user and is still "scheduled": for any
    other id (unknown, someone else's, or already processed or cancelled)
    the state is left as it was and the answer is not 200. *)
Theorem updateScheduledJob_guard st now id user body :
  (∀ p, db st !! id = Some p → ¬ (createdBy p = user ∧ p_status p = "scheduled")) →
  (updateScheduledJob updateValidators st now id user body).1 = st ∧
  statusCode (updateScheduledJob updateValidators st now id user body).2 ≠ 200%nat.
Proof.
  intros H. unfold updateScheduledJob.
  destruct (scheduledJobValidation body now); [| done].
  unfold findOneAndUpdate_scheduled.
  destruct (bool_decide _); [done |].
  destruct (updateValidators body); [| done]. cbn [negb].
  destruct (db st !! id) as [p |] eqn:E; [| done].
  destruct (Nat.eqb (createdBy p) user && String.eqb (p_status p) "scheduled") eqn:Hq;
    [| done].
  exfalso. apply andb_true_iff in Hq as [Hu Hs]. apply (H p eq_refl).
  split; [by apply Nat.eqb_eq | by apply String.eqb_eq].
Qed.

(** X16.  A valid update of the user's own scheduled job is answered 200
    with the updated job; the collection holds it, and the job cache is
    rebuilt from the collection, so that it holds the updated job and
    exactly the stored scheduled posts dated at or after [now]. *)
Theorem updateScheduledJob_reloads st now id user body p d t :
  keyed_by_id (db st) →
  scheduledJobValidation body now = [] →
  updateValidators body = true →
  b_scheduledDate body = Some d → instant d = Some t →
  db st !! id = Some p → createdBy p = user → p_status p = "scheduled" →
  let r := updateScheduledJob updateValidators st now id user body in
  r.2 = mkResponse 200 (Data "Scheduled job updated successfully" (apply_body body p)) ∧
  db r.1 = <[id := apply_body body p]> (db st) ∧
  scheduledJobs r.1 !! id = Some (apply_body body p) ∧
  ∀ id' q, scheduledJobs r.1 !! id' = Some q ↔
           db r.1 !! id' = Some q ∧ upcoming_query now q = true.
Proof.
  intros Hk Hv HV Hd Ht Hp Hu Hs r.
  assert (Hr : r = (loadScheduledPosts (set_db (<[id := apply_body body p]> (db st)) st) now,
                    mkResponse 200
                      (Data "Scheduled job updated successfully" (apply_body body p)))).
  { unfold r, updateScheduledJob. rewrite Hv. unfold findOneAndUpdate_scheduled.
    rewrite bool_decide_eq_false_2 by (rewrite Hd; simpl; rewrite Ht; by intros [? _]).
    rewrite HV. cbn [negb]. rewrite Hp, Hu, Hs.
    by rewrite Nat.eqb_refl, String.eqb_refl. }
  rewrite Hr. cbn [fst snd].
  assert (Hk' : keyed_by_id (db (set_db (<[id := apply_body body p]> (db st)) st))).
  { simpl. apply keyed_by_id_insert; [done |]. exact (Hk id p Hp). }
  split; [reflexivity |]. split; [reflexivity |].
  assert (Hup : upcoming_query now (apply_body body p) = true).
  { destruct (validation_passed_future body now Hv) as (d' & Hd' & _ & Hfut).
    rewrite Hd in Hd'. injection Hd' as <-. rewrite Ht in Hfut. simpl in Hfut.
    unfold upcoming_query. simpl. rewrite Hs, Hd, Ht. simpl.
    apply Z.leb_gt in Hfut. apply Z.leb_le. lia. }
  split.
  - apply (loadScheduledPosts_lookup _ now id (apply_body body p) Hk').
    split; [apply lookup_insert_eq | done].
  - intros id' q. by apply (loadScheduledPosts_lookup _ now id' q Hk').
Qed.

End UpdateJob.

(** ** Posting through the social media controller *)

Section ControllerPost.

Variable services : SocialMediaService.Services.

Lemma schema_valid_status b pf d s1 s2 user :
  schema_valid (SocialMediaController.document_of_body b pf d s1 user) = true →
  s2 ∈ statusEnum →
  schema_valid (SocialMediaController.document_of_body b pf d s2 user) = true.
Proof.
  unfold schema_valid. simpl. intros H Hs.
  apply andb_true_iff in H as [H _]. rewrite H. by apply bool_decide_eq_true.
Qed.

Lemma create_with_ok newId i published results (d : Collection) :
  schema_valid i = true →
  SocialMediaController.results_valid results = true →
  d !! newId = None →
  SocialMediaController.create_with newId i published results d
    = Return
        (<[newId :=
             pre_save
               (mkPost newId (default "" (i_title i)) (default "" (i_content i))
                  (i_platforms i) (i_media i) (i_hashtags i) (i_mentions i) []
                  (i_scheduledDate i ≫= instant) published (i_status i) results
                  (i_createdBy i) defaultAnalytics)]> d,
         pre_save
           (mkPost newId (default "" (i_title i)) (default "" (i_content i))
              (i_platforms i) (i_media i) (i_hashtags i) (i_mentions i) []
              (i_scheduledDate i ≫= instant) published (i_status i) results
              (i_createdBy i) defaultAnalytics)).
Proof.
  intros Hs Hr Hfree. unfold SocialMediaController.create_with.
  rewrite Hs, Hr. cbn [andb negb].
  by rewrite bool_decide_eq_false_2 by (rewrite Hfree; by intros [? ?]).
Qed.

Lemma single_result_valid pf a b c e f s :
  pf ∈ supportedPlatforms → s ∈ resultStatusEnum →
  SocialMediaController.results_valid [mkPostResult pf a b c e f s] = true.
Proof.
  intros H1 H2. unfold SocialMediaController.results_valid. simpl.
  by rewrite !bool_decide_eq_true_2.
Qed.

(** X17.  An immediate post records what the platform answered.  For a
    supported platform and a request that the schema accepts, one document
    is stored with a single result for that platform: when the platform's
    service resolves, the document is "published" at the time of the call
    and the result is a "success" carrying the returned id; when it rejects,
    the document is "failed", has no publication date, and the result is
    "failed" and carries the error message. *)
Theorem immediate_post_records_outcome st now newId user pf b :
  pf ∈ supportedPlatforms →
  SocialMediaController.pb_scheduledDate b = None →
  schema_valid (SocialMediaController.document_of_body b pf None "published" user) = true →
  db st !! newId = None →
  let r := SocialMediaController.postToPlatform services st now newId user [] pf b in
  ∃ post entry,
    db r.1 !! newId = Some post ∧ postResults post = [entry] ∧ platform entry = pf ∧
    match services pf (SocialMediaController.postData_of_body b) None with
    | Return res =>
        SocialMediaController.http_status r.2 = 200%nat ∧
        p_status post = "published" ∧ publishedDate post = Some now ∧
        status entry = "success" ∧ postId entry = SocialMediaService.sr_postId res ∧
        error entry = None
    | Throw err =>
        r.2 = SocialMediaController.NotPosted (Some (Js.message err)) post ∧
        p_status post = "failed" ∧ publishedDate post = None ∧
        status entry = "failed" ∧ error entry = Some (Js.message err)
    end.
Proof.
  intros Hpf Hd Hs Hfree r. unfold r, SocialMediaController.postToPlatform.
  rewrite bool_decide_eq_true_2 by done. cbn [negb]. rewrite Hd.
  destruct (services pf (SocialMediaController.postData_of_body b) None)
    as [res | err] eqn:E.
  - rewrite (postToPlatform_resolved services pf _ None res Hpf E).
    cbn [SocialMediaService.success SocialMediaService.postId SocialMediaService.url
         SocialMediaService.engagement].
    rewrite create_with_ok;
      [| done
       | apply single_result_valid; [done | apply (bool_decide_unpack _); by vm_compute]
       | done].
    eexists _, _. cbn [fst snd db set_db]. rewrite lookup_insert_eq.
    split; [reflexivity |]. split; [reflexivity |]. done.
  - rewrite (postToPlatform_rejected services pf _ None err Hpf E).
    cbn [SocialMediaService.success SocialMediaService.error].
    rewrite create_with_ok;
      [| apply (schema_valid_status b pf None "published" "failed" user Hs);
         apply (bool_decide_unpack _); by vm_compute
       | apply single_result_valid; [done | apply (bool_decide_unpack _); by vm_compute]
       | done].
    eexists _, _. cbn [fst snd db set_db]. rewrite lookup_insert_eq.
    split; [reflexivity |]. split; [reflexivity |]. done.
Qed.

(** X18.  A post scheduled through the social media controller is stored as
    "scheduled" without entering the job cache, and no check keeps its date
    in the future; the scheduler still publishes it: a run of
    [processScheduledPosts] at or after its date dispatches it, and
    afterwards it is stored as "published". *)
Theorem controller_scheduled_post_is_dispatched st now now' newId user pf b d t :
  keyed_by_id (db st) →
  pf ∈ supportedPlatforms →
  SocialMediaController.pb_scheduledDate b = Some d → instant d = Some t →
  schema_valid (SocialMediaController.document_of_body b pf (Some d) "scheduled" user) = true →
  db st !! newId = None →
  t ≤ now' →
  let r := SocialMediaController.postToPlatform services st now newId user [] pf b in
  ∃ post,
    r.2 = SocialMediaController.Scheduled post ∧
    db r.1 !! newId = Some post ∧ p_status post = "scheduled" ∧
    scheduledJobs r.1 = scheduledJobs st ∧
    post ∈ (processScheduledPosts services r.1 now').2 ∧
    p_status <$> db (processScheduledPosts services r.1 now').1 !! newId
      = Some "published".
Proof.
  intros Hk Hpf Hd Ht Hs Hfree Hle r.
  assert (Hr : ∃ post, r = (set_db (<[newId := post]> (db st)) st,
                            SocialMediaController.Scheduled post) ∧
                       _id post = newId ∧ p_status post = "scheduled" ∧
                       scheduledDate post = Some t).
  { unfold r, SocialMediaController.postToPlatform.
    rewrite bool_decide_eq_true_2 by done. cbn [negb]. rewrite Hd.
    unfold create. rewrite Hs. cbn [negb].
    rewrite bool_decide_eq_false_2 by (rewrite Hfree; by intros [? ?]).
    eexists. split; [reflexivity |]. simpl. by rewrite Ht. }
  destruct Hr as (post & -> & Hid & Hst & Hdate). exists post. cbn [fst snd].
  assert (Hk' : keyed_by_id (db (set_db (<[newId := post]> (db st)) st)))
    by (simpl; by apply keyed_by_id_insert).
  assert (Hin : post ∈ (processScheduledPosts services
                          (set_db (<[newId := post]> (db st)) st) now').2).
  { rewrite processScheduledPosts_log. apply elem_of_find. split.
    - unfold due_query. rewrite Hst, Hdate. simpl. by apply Z.leb_le.
    - exists newId. simpl. apply lookup_insert_eq. }
  split; [done |]. split; [apply lookup_insert_eq |]. split; [done |].
  split; [done |]. split; [done |].
  destruct (dispatched_is_stored services _ now' post Hk' Hin) as (q & Hq & Hqs & _).
  rewrite Hid in Hq. by rewrite Hq, <- Hqs.
Qed.

End ControllerPost.

(** X19.  For a well-formed id, [deleteScheduledPost] answers 200 exactly
    when it names a stored post of the requesting user that is still
    "scheduled"; then that document, and only that one, is removed from the
    collection.  In every other case the answer is 404 and nothing changes.
    The job cache is never touched. *)
Theorem deleteScheduledPost_result st id user :
  let r := SocialMediaController.deleteScheduledPost st id user in
  (r.2 = 200%nat ↔
     ∃ p, db st !! id = Some p ∧ createdBy p = user ∧ p_status p = "scheduled") ∧
  (r.2 = 200%nat → db r.1 = delete id (db st)) ∧
  (r.2 ≠ 200%nat → r.2 = 404%nat ∧ r.1 = st) ∧
  scheduledJobs r.1 = scheduledJobs st.
Proof.
  unfold SocialMediaController.deleteScheduledPost.
  destruct (db st !! id) as [p |] eqn:E.
  - destruct (Nat.eqb (createdBy p) user && String.eqb (p_status p) "scheduled") eqn:Hq;
      cbn [fst snd].
    + apply andb_true_iff in Hq as [Hu Hs].
      apply Nat.eqb_eq in Hu. apply String.eqb_eq in Hs.
      repeat split; try done. intros _. by exists p.
    + repeat split; try done. intros (q & [= <-] & Hu & Hs).
      rewrite Hu, Hs, Nat.eqb_refl, String.eqb_refl in Hq. discriminate.
  - cbn [fst snd]. repeat split; try done. by intros (q & ? & _).
Qed.

(** ** The document methods *)



(** X21.  The pre-save hook is idempotent: saving a document a second time
    without touching it leaves every field, the aggregates included, as the
    first save left them. *)
Theorem pre_save_idempotent p : pre_save (pre_save p) = pre_save p.
Proof.
  unfold pre_save, set_analytics.
  cbn -[Z.ltb sum_counter virtual_totalEngagement percent].
  destruct (Z.ltb 0 (sum_counter views (postResults p))); reflexivity.
Qed.

(** ** The platform services that need media *)

Section MediaAdapters.

Import Adapters.

Variable w : World.

(** X22.  What [youtubeService] can answer.  It resolves only when the
    first media item is a video, and then the URL is the watch address of the
    returned id; it rejects with "YouTube posts require video media" when
    there is no media or the first item is not a video, whatever the network
    does, and every other rejection has a message starting with
    "YouTube API error: ". *)
Theorem youtubeService_outcome d c :
  match youtubeService w d c with
  | Return r =>
      (∃ m, head (pd_media d) = Some m ∧ m_type m = "video") ∧
      SocialMediaService.sr_url r
        = Some ("https://youtube.com/watch?v="
                ++ interpolate (SocialMediaService.sr_postId r))
  | Throw e =>
      (Js.message e = "YouTube posts require video media" ∧
       ∀ m, head (pd_media d) = Some m → m_type m ≠ "video") ∨
      ((∃ m, head (pd_media d) = Some m ∧ m_type m = "video") ∧
       ∃ text, Js.message e = "YouTube API error: " ++ text)
  end.
Proof.
  unfold youtubeService. destruct (pd_media d) as [| m ms] eqn:E; simpl.
  - left. split; [done |]. by intros m [=].
  - destruct (String.eqb_spec (m_type m) "video") as [Hv | Hv]; simpl.
    + destruct (download w (m_url m)) as [buf | e]; simpl.
      * destruct (youtube_upload w _ _ _) as [id | e]; simpl.
        -- split; [by exists m | done].
        -- right. split; [by exists m | by eexists].
      * right. split; [by exists m | by eexists].
    + left. split; [done |]. by intros ? [= <-].
Qed.


(** X24.  [instagramService] resolves only when the Instagram package is
    loaded, the login went through and the first media item is an image or a
    video; without the package it rejects with the "not available" message,
    and a post without media is always rejected. *)
Theorem instagramService_outcome d c :
  match instagramService w d c with
  | Return r =>
      IgApiClient w = true ∧
      ∃ m, head (pd_media d) = Some m ∧ (m_type m = "image" ∨ m_type m = "video")
  | Throw e =>
      IgApiClient w = false →
      Js.message e
        = "Instagram API is not available. Please install instagram-private-api package."
  end ∧
  (pd_media d = [] → ∃ e, instagramService w d c = Throw e).
Proof.
  unfold instagramService. destruct (IgApiClient w) eqn:Hig; simpl.
  - destruct (ig_generateDevice w _) as [[] | e]; simpl; [| split; [done | by eexists]].
    destruct (ig_login w _ _) as [[] | e]; simpl; [| split; [done | by eexists]].
    destruct (pd_media d) as [| m ms]; simpl; [split; [done | by eexists] |].
    split; [| done].
    destruct (download w (m_url m)) as [buf | e]; simpl; [| done].
    destruct (String.eqb_spec (m_type m) "image") as [Hi | Hi].
    + destruct (ig_photo w _ _) as [res | e]; simpl; [| done].
      split; [done |]. exists m. split; [done | by left].
    + destruct (String.eqb_spec (m_type m) "video") as [Hv | Hv]; simpl; [| done].
      destruct (ig_video w _ _) as [res | e]; simpl; [| done].
      split; [done |]. exists m. split; [done | by right].
  - split; [done | by eexists].
Qed.

Lemma youtubeService_no_media d c :
  pd_media d = [] → ∃ e, youtubeService w d c = Throw e.
Proof. intros H. unfold youtubeService. rewrite H. by eexists. Qed.

Lemma tiktokService_no_media d c :
  pd_media d = [] → ∃ e, tiktokService w d c = Throw e.
Proof.
  intros H. unfold tiktokService.
  destruct (or_else _ _) as [[| ch tok] |]; [by eexists | | by eexists].
  rewrite H. by eexists.
Qed.

Lemma instagramService_no_media d c :
  pd_media d = [] → ∃ e, instagramService w d c = Throw e.
Proof.
  intros H. unfold instagramService. destruct (IgApiClient w); simpl; [| by eexists].
  destruct (ig_generateDevice w _) as [[] | e]; simpl; [| by eexists].
  destruct (ig_login w _ _) as [[] | e]; simpl; [| by eexists].
  rewrite H. by eexists.
Qed.

(** X25.  A post without media is never reported as published on
    Instagram, TikTok or YouTube: when the platform table holds these three
    services, [postToPlatform] answers [success: false] for each of them,
    whatever the credentials and the network. *)
Theorem media_required services d c pf :
  pd_media d = [] →
  services "instagram" d c = instagramService w d c →
  services "tiktok" d c = tiktokService w d c →
  services "youtube" d c = youtubeService w d c →
  pf ∈ ["instagram"; "tiktok"; "youtube"] →
  ∃ r, SocialMediaService.postToPlatform services pf d c = Return r ∧
       SocialMediaService.success r = false ∧
       is_Some (SocialMediaService.error r).
Proof.
  intros Hm Hi Ht Hy Hpf.
  assert (Hthrow : ∃ e, services pf d c = Throw e).
  { rewrite !elem_of_cons in Hpf. destruct Hpf as [-> | [-> | [-> | Hpf]]].
    - rewrite Hi. by apply instagramService_no_media.
    - rewrite Ht. by apply tiktokService_no_media.
    - rewrite Hy. by apply youtubeService_no_media.
    - by apply elem_of_nil in Hpf. }
  destruct Hthrow as [e He].
  assert (Hsup : pf ∈ supportedPlatforms).
  { rewrite !elem_of_cons in Hpf. destruct Hpf as [-> | [-> | [-> | Hpf]]];
      [| | | by apply elem_of_nil in Hpf];
      apply (bool_decide_unpack _); by vm_compute. }
  rewrite (postToPlatform_rejected services pf d c e Hsup He).
  eexists. split; [reflexivity |]. split; [done | by eexists].
Qed.

End MediaAdapters.

(** ** The invariant is kept *)

Lemma keyed_by_id_singleton p : keyed_by_id {[ _id p := p ]}.
Proof.
  intros id q H. apply lookup_singleton_Some in H as [<- <-]. reflexivity.
Qed.

Lemma cancelScheduledPost_db st id :
  db (cancelScheduledPost st id).1
    = (findByIdAndUpdate id (mkUpdate (Some "cancelled") None None) (db st)).1.
Proof.
  unfold cancelScheduledPost, findByIdAndUpdate.
  by destruct (db st !! id).
Qed.

Lemma createScheduledJob_keyed st now newId user body :
  keyed_by_id (db st) → keyed_by_id (db (createScheduledJob st now newId user body).1).
Proof.
  intros Hk. unfold createScheduledJob.
  destruct (scheduledJobValidation body now); [| exact Hk].
  unfold schedulePost, create, try_catch, mbind, Completion_bind, Js.bind.
  destruct (negb (schema_valid _)); [exact Hk |].
  destruct (bool_decide _); [exact Hk |].
  cbn [fst snd db]. apply keyed_by_id_insert; [exact Hk | reflexivity].
Qed.

Lemma cancelScheduledPost_keyed st id :
  keyed_by_id (db st) → keyed_by_id (db (cancelScheduledPost st id).1).
Proof. intros Hk. rewrite cancelScheduledPost_db. by apply keyed_by_id_update. Qed.

Lemma deleteScheduledPost_keyed st id user :
  keyed_by_id (db st) →
  keyed_by_id (db (SocialMediaController.deleteScheduledPost st id user).1).
Proof.
  intros Hk. unfold SocialMediaController.deleteScheduledPost.
  destruct (db st !! id) as [q |]; [| exact Hk].
  destruct (_ && _); [| exact Hk]. cbn [fst db set_db]. by apply keyed_by_id_delete.
Qed.

Lemma updatePostResult_keyed pf rd p (d : Collection) :
  keyed_by_id d → keyed_by_id (updatePostResult pf rd p d).1.
Proof.
  intros Hk. unfold updatePostResult, save. cbn [fst].
  apply keyed_by_id_insert; [exact Hk | reflexivity].
Qed.

(** X26.  Documents stay filed under their own id: if every document of the
    collection is stored under its [_id], the same holds after a run of
    [processScheduledPosts], a cancel, a [POST /jobs] request, a delete and
    an [updatePostResult]. *)
Theorem operations_keep_ids services st now id newId user body pf rd p :
  keyed_by_id (db st) →
  keyed_by_id (db (processScheduledPosts services st now).1) ∧
  keyed_by_id (db (cancelScheduledPost st id).1) ∧
  keyed_by_id (db (createScheduledJob st now newId user body).1) ∧
  keyed_by_id (db (SocialMediaController.deleteScheduledPost st id user).1) ∧
  keyed_by_id (updatePostResult pf rd p (db st)).1.
Proof.
  intros Hk. split; [exact (processScheduledPosts_keyed services st now Hk) |].
  split; [exact (cancelScheduledPost_keyed st id Hk) |].
  split; [exact (createScheduledJob_keyed st now newId user body Hk) |].
  split; [exact (deleteScheduledPost_keyed st id user Hk) |].
  exact (updatePostResult_keyed pf rd p (db st) Hk).
Qed.

(** ** The theorems above at concrete inputs *)

Lemma keyed_st_fb_tw : keyed_by_id (db Scenario.st_fb_tw).
Proof. exact (keyed_by_id_singleton Scenario.post_fb_tw). Qed.

Lemma run_leaves_others_witness :
  db (processScheduledPosts Scenario.facebook_only Scenario.st_next_week 2000).1 !! 6%nat
    = Some Scenario.post_next_week.
Proof.
  apply (run_leaves_others Scenario.facebook_only Scenario.st_next_week 2000 6%nat
           Scenario.post_next_week);
    [exact (keyed_by_id_singleton Scenario.post_next_week) | reflexivity | reflexivity].
Defined.

Lemma run_consumes_due_witness :
  find (due_query 2000)
    (db (processScheduledPosts Scenario.facebook_only Scenario.st_fb_tw 2000).1) = [] ∧
  processScheduledPosts Scenario.facebook_only
    (processScheduledPosts Scenario.facebook_only Scenario.st_fb_tw 2000).1 2000
    = ((processScheduledPosts Scenario.facebook_only Scenario.st_fb_tw 2000).1, []).
Proof.
  apply (run_consumes_due Scenario.facebook_only Scenario.st_fb_tw 2000).
  exact keyed_st_fb_tw.
Defined.

Lemma run_outcome_witness :
  ∃ q, db (processScheduledPosts Scenario.facebook_only Scenario.st_fb_tw 2000).1 !! 1%nat
         = Some q ∧
       p_status q = "published" ∧
       publishedDate q = Some 2000 ∧
       platform <$> postResults q = ["facebook"; "twitter"] ∧
       scheduledJobs (processScheduledPosts Scenario.facebook_only Scenario.st_fb_tw 2000).1
         !! 1%nat = None.
Proof.
  apply (run_outcome Scenario.facebook_only Scenario.st_fb_tw 2000 Scenario.post_fb_tw);
    [exact keyed_st_fb_tw | vm_compute; apply list_elem_of_here].
Defined.

Lemma loadScheduledPosts_cache_witness :
  (scheduledJobs (loadScheduledPosts Scenario.st_fb_tw 500) !! 1%nat
     = Some Scenario.post_fb_tw ↔
   db Scenario.st_fb_tw !! 1%nat = Some Scenario.post_fb_tw ∧
   upcoming_query 500 Scenario.post_fb_tw = true) ∧
  db (loadScheduledPosts Scenario.st_fb_tw 500) = db Scenario.st_fb_tw.
Proof.
  apply (loadScheduledPosts_cache Scenario.st_fb_tw 500 1%nat Scenario.post_fb_tw).
  exact keyed_st_fb_tw.
Defined.

Lemma schedule_then_cancel_witness :
  ∃ st1 job,
    createScheduledJob Scenario.st_empty 5000 1%nat 7%nat Scenario.body_future
      = (st1, mkResponse 201 (Data "Job scheduled successfully" job)) ∧
    (cancelScheduledJob st1 1%nat).2
      = mkResponse 200 (Data "Scheduled job cancelled successfully"
                          (set_status "cancelled" job)) ∧
    scheduledJobs (cancelScheduledJob st1 1%nat).1 = scheduledJobs Scenario.st_empty ∧
    db (cancelScheduledJob st1 1%nat).1 !! 1%nat = Some (set_status "cancelled" job).
Proof.
  apply (schedule_then_cancel Scenario.st_empty 5000 1%nat 7%nat Scenario.body_future);
    [vm_compute; reflexivity | vm_compute; reflexivity | reflexivity | reflexivity].
Defined.

Lemma createScheduledJob_without_title_witness :
  ∃ text,
    createScheduledJob Scenario.st_empty 5000 1%nat 7%nat Scenario2.body_untitled
      = (Scenario.st_empty,
         mkResponse 500
           (Message false "Server error creating scheduled job" (Some text))).
Proof.
  apply (createScheduledJob_without_title Scenario.st_empty 5000 1%nat 7%nat
           Scenario2.body_untitled);
    [vm_compute; reflexivity | reflexivity].
Defined.


Lemma stats_counts_witness :
  getSchedulerStats Scenario.st_fb_tw 7%nat 0 !! "total"
    = Some (countDocuments (fun p => Nat.eqb (createdBy p) 7) (db Scenario.st_fb_tw)) ∧
  ∀ s, s ≠ "total" → s ≠ "upcoming" →
       getSchedulerStats Scenario.st_fb_tw 7%nat 0 !! s
         = (let n := countDocuments
                       (fun p => Nat.eqb (createdBy p) 7
                                 && String.eqb (p_status p) s) (db Scenario.st_fb_tw) in
            if bool_decide (n = 0 ∧ s ∉ ["scheduled"; "published"; "failed"; "cancelled"])
            then None else Some n).
Proof.
  apply (stats_counts Scenario.st_fb_tw 7%nat 0).
  intros id p H _. unfold Scenario.st_fb_tw, Scenario.running in H. cbn [db] in H.
  apply lookup_singleton_Some in H as [_ <-].
  apply (bool_decide_unpack _). vm_compute. exact I.
Defined.

Lemma getScheduledPosts_result_witness :
  [Scenario.post_fb_tw] ≡ₚ find (scheduled_query 7%nat Scenario2.no_filters)
                            (db Scenario.st_fb_tw) ∧
  StronglySorted by_scheduledDate [Scenario.post_fb_tw] ∧
  ∀ p, p ∈ [Scenario.post_fb_tw] →
       createdBy p = 7%nat ∧ p_status p = "scheduled" ∧
       (∀ pf, f_platform Scenario2.no_filters = Some pf → pf ∈ platforms p) ∧
       (∀ a, f_startDate Scenario2.no_filters = Some (Some a) →
             ∃ t, scheduledDate p = Some t ∧ a ≤ t) ∧
       (∀ b, f_endDate Scenario2.no_filters = Some (Some b) →
             ∃ t, scheduledDate p = Some t ∧ t ≤ b).
Proof.
  apply (getScheduledPosts_result Scenario.st_fb_tw 7%nat Scenario2.no_filters
           [Scenario.post_fb_tw]).
  vm_compute. reflexivity.
Defined.

Lemma getNextScheduledTime_is_earliest_witness :
  (∃ id p, db Scenario.st_fb_tw !! id = Some p ∧ createdBy p = 7%nat ∧
           p_status p = "scheduled" ∧ scheduledDate p = Some 1000) ∧
  ∀ id q, db Scenario.st_fb_tw !! id = Some q → createdBy q = 7%nat →
          p_status q = "scheduled" → ∃ t', scheduledDate q = Some t' ∧ 1000 ≤ t'.
Proof.
  apply (getNextScheduledTime_is_earliest Scenario.st_fb_tw 7%nat 1000).
  vm_compute. reflexivity.
Defined.

Lemma getScheduledJobs_page_witness :
  ∃ jobs,
    getScheduledPosts Scenario.st_fb_tw 7%nat
      (mkFilters (q_startDate Scenario2.no_query) (q_endDate Scenario2.no_query)
         (q_platform Scenario2.no_query))
      = Return jobs ∧
    data Scenario2.page_fb_tw `prefix_of` jobs ∧
    total Scenario2.page_fb_tw = length jobs ∧
    (q_limit Scenario2.no_query = None → (length (data Scenario2.page_fb_tw) ≤ 20)%nat) ∧
    ∀ k, parsed_limit Scenario2.no_query = Some k → 0 ≤ k →
         length (data Scenario2.page_fb_tw)
           = Nat.min (Z.to_nat k) (total Scenario2.page_fb_tw) ∧
         (hasMore Scenario2.page_fb_tw = true ↔
            (length (data Scenario2.page_fb_tw) < total Scenario2.page_fb_tw)%nat).
Proof.
  apply (getScheduledJobs_page Scenario.st_fb_tw 7%nat Scenario2.no_query
           Scenario2.page_fb_tw).
  vm_compute. reflexivity.
Defined.

Lemma updateScheduledJob_guard_witness :
  (updateScheduledJob Scenario2.accept_all Scenario.st_done 5000 3%nat 7%nat
     Scenario.body_future).1 = Scenario.st_done ∧
  statusCode (updateScheduledJob Scenario2.accept_all Scenario.st_done 5000 3%nat 7%nat
                Scenario.body_future).2 ≠ 200%nat.
Proof.
  apply (updateScheduledJob_guard Scenario2.accept_all Scenario.st_done 5000 3%nat 7%nat
           Scenario.body_future).
  intros p H [_ Hs]. unfold Scenario.st_done in H. cbn [db] in H.
  apply lookup_singleton_Some in H as [_ <-]. discriminate.
Defined.

Lemma updateScheduledJob_reloads_witness :
  let r := updateScheduledJob Scenario2.accept_all Scenario.st_fb_tw 5000 1%nat 7%nat
             Scenario.body_future in
  r.2 = mkResponse 200
          (Data "Scheduled job updated successfully"
             (apply_body Scenario.body_future Scenario.post_fb_tw)) ∧
  db r.1 = <[1%nat := apply_body Scenario.body_future Scenario.post_fb_tw]>
             (db Scenario.st_fb_tw) ∧
  scheduledJobs r.1 !! 1%nat = Some (apply_body Scenario.body_future Scenario.post_fb_tw) ∧
  ∀ id' q, scheduledJobs r.1 !! id' = Some q ↔
           db r.1 !! id' = Some q ∧ upcoming_query 5000 q = true.
Proof.
  apply (updateScheduledJob_reloads Scenario2.accept_all Scenario.st_fb_tw 5000 1%nat
           7%nat Scenario.body_future Scenario.post_fb_tw
           (mkDateString true (Some 9000)) 9000);
    [exact keyed_st_fb_tw | vm_compute; reflexivity | reflexivity | reflexivity
     | reflexivity | reflexivity | reflexivity | reflexivity].
Defined.

Lemma immediate_post_records_outcome_witness :
  let r := SocialMediaController.postToPlatform Scenario.facebook_only Scenario.st_empty
             5000 1%nat 7%nat [] "facebook" Scenario2.post_now in
  ∃ post entry,
    db r.1 !! 1%nat = Some post ∧ postResults post = [entry] ∧
    platform entry = "facebook" ∧
    match Scenario.facebook_only "facebook"
            (SocialMediaController.postData_of_body Scenario2.post_now) None with
    | Return res =>
        SocialMediaController.http_status r.2 = 200%nat ∧
        p_status post = "published" ∧ publishedDate post = Some 5000 ∧
        status entry = "success" ∧ postId entry = SocialMediaService.sr_postId res ∧
        error entry = None
    | Throw err =>
        r.2 = SocialMediaController.NotPosted (Some (Js.message err)) post ∧
        p_status post = "failed" ∧ publishedDate post = None ∧
        status entry = "failed" ∧ error entry = Some (Js.message err)
    end.
Proof.
  apply (immediate_post_records_outcome Scenario.facebook_only Scenario.st_empty 5000
           1%nat 7%nat "facebook" Scenario2.post_now);
    [apply (bool_decide_unpack _); vm_compute; exact I | reflexivity
     | vm_compute; reflexivity | reflexivity].
Defined.

Lemma controller_scheduled_post_is_dispatched_witness :
  let r := SocialMediaController.postToPlatform Scenario.facebook_only Scenario.st_empty
             3000 1%nat 7%nat [] "facebook" Scenario2.post_later in
  ∃ post,
    r.2 = SocialMediaController.Scheduled post ∧
    db r.1 !! 1%nat = Some post ∧ p_status post = "scheduled" ∧
    scheduledJobs r.1 = scheduledJobs Scenario.st_empty ∧
    post ∈ (processScheduledPosts Scenario.facebook_only r.1 5000).2 ∧
    p_status <$> db (processScheduledPosts Scenario.facebook_only r.1 5000).1 !! 1%nat
      = Some "published".
Proof.
  apply (controller_scheduled_post_is_dispatched Scenario.facebook_only Scenario.st_empty
           3000 5000 1%nat 7%nat "facebook" Scenario2.post_later
           (mkDateString true (Some 4000)) 4000);
    [exact keyed_by_id_empty
     | apply (bool_decide_unpack _); vm_compute; exact I | reflexivity | reflexivity
     | vm_compute; reflexivity | reflexivity | lia].
Defined.

Lemma media_required_witness :
  ∃ r, SocialMediaService.postToPlatform (Scenario2.media_services Scenario2.offline)
         "youtube" Scenario.hello None = Return r ∧
       SocialMediaService.success r = false ∧
       is_Some (SocialMediaService.error r).
Proof.
  apply (media_required Scenario2.offline (Scenario2.media_services Scenario2.offline)
           Scenario.hello None "youtube");
    [reflexivity | reflexivity | reflexivity | reflexivity |].
  apply (bool_decide_unpack _). vm_compute. exact I.
Defined.

Lemma operations_keep_ids_witness :
  keyed_by_id (db (processScheduledPosts Scenario.facebook_only Scenario.st_fb_tw 2000).1) ∧
  keyed_by_id (db (cancelScheduledPost Scenario.st_fb_tw 1%nat).1) ∧
  keyed_by_id (db (createScheduledJob Scenario.st_fb_tw 5000 2%nat 7%nat
                     Scenario.body_future).1) ∧
  keyed_by_id (db (SocialMediaController.deleteScheduledPost Scenario.st_fb_tw 1%nat
                     7%nat).1) ∧
  keyed_by_id (updatePostResult "facebook" (Scenario.seen 10 5) Scenario.post_fb_tw
                 (db Scenario.st_fb_tw)).1.
Proof.
  apply (operations_keep_ids Scenario.facebook_only Scenario.st_fb_tw 2000 1%nat 2%nat
           7%nat Scenario.body_future "facebook" (Scenario.seen 10 5) Scenario.post_fb_tw).
  exact keyed_st_fb_tw.
Defined.
